(* ===== verification/_CoqProject ===== *)
-Q . S2P
Prelude.v
Codec.v
Reader.v
Eeprom.v
Store.v
Provision.v
Serial.v
Controller.v
Refinement.v
Liveness.v
