(* ===== verification/Prelude.v ===== *)
(** * Hodor: a verification development of the RFID door controller

    The program (src/src/main.cpp, an Arduino sketch for an ATmega328P
    with a PN532 NFC reader, a relay on pin 3, the on-chip EEPROM and a
    serial console) is one control loop over five parts, which this
    development models as one file each, on top of this prelude, with
    the hand-off from the reader driver, and two files about the whole
    device:

    - [Prelude] (this file): machine widths ([wrap32] for [unsigned long]
      arithmetic on [millis()], [to_u8] for the conversion to [uint8_t]),
      Arduino [String]s as lists of character codes ([str] for literals,
      [cstr] for [String(const char* )], [str_eq] for [String::operator==]),
      the generic lemmas on them ([wrap32_reach]: some wait of at most [w]
      ms makes [w] ms elapse), the [hodor] hint database and tactics.

    - [Codec]: the rendering of the raw UID bytes into the text the rest
      of the program compares and stores (main.cpp lines 113-118, the
      loop [content += String(uid[i], HEX)] and [content.toUpperCase()]).

    - [Reader]: the hand-off from the PN532 driver (lines 104-118): the
      7-byte [uid] array, [uidLength], the driver's unchecked copy into
      the array ([readPassiveTargetID]) and the indexed rendering loop;
      [poll_card] is [None] where the C code has undefined behaviour.

    - [Eeprom]: the byte-addressable EEPROM collaborator ([EEPROM.read],
      [EEPROM.write] of the Arduino library, not under src/), stated as a
      typeclass [EepromOps] with its laws [EepromLaws]; the store is proved
      against the laws and a finite-map instance discharges them.

    - [Store]: the persistent identifier table: [saveUIDToEEPROM],
      [readUIDFromEEPROM], [checkUID], [addUID], [resetEEPROM] and the
      header load of [setup] (lines 89, 161-210). The in-RAM [cardCount]
      and the EEPROM are one record; each operation is one definition
      with every write it makes, in the code's order.

    - [Provision]: the factory list [predefinedUIDs] and
      [addPredefinedUIDs] (lines 22-55, 213-220), with [seed_writes], the
      EEPROM writes of the seeding in order, for power cuts during it.

    - [Serial]: the serial console (lines 75-91, 119-124, 141, 150-155,
      163, 174-179, 217): the stream of bytes [Serial.print] and
      [Serial.println] append, every message literal byte for byte (UTF-8),
      [addUID_msg] for the line of each [addUID] outcome, the decimal
      rendering [print_long] of the Arduino core (the count [setup]
      prints), and [seed_io], the seeding loop with what it prints.

    - [Controller]: [setup] and [loop] (lines 67-159), the globals
      [addMode] and [lastReadTime], the clock read by [millis()] and
      advanced by [delay()], the direction of the relay pin ([pinMode]),
      the relay level and the log of its writes,
      the serial stream, the restart of [resetEEPROM] ([jmp 0]), and the
      step relation of the whole device with its reachable states.

    - [Refinement]: an abstract access controller ([Abstract.decide_card]
      on a list of cards and an armed flag) and the proof that the
      controller implements it, with the serial lines of each decision.

    - [Liveness]: what the device eventually does under its inputs, and
      the termination of enrollment.

    How the parts interact: [Controller.setup] loads the count with
    [Store.load], prints it with [Serial.print_long] and seeds with
    [Serial.addPredefinedUIDs_io] (whose store is [Provision]'s);
    [Controller.loop] renders each UID with [Codec.encode], echoes it and
    calls [Store.checkUID], [Store.addUID] or [Store.resetEEPROM],
    printing the lines of [Serial]; the store reaches the EEPROM only
    through the [Eeprom] interface.

    What the theorems show, by group:
    - Store: [checkUID_spec] (the scan is membership, equivalence),
      [addUID_refines] (refinement of a bounded duplicate-free list
      insertion, with the invariant [store_wf]), [addUID_crash_consistent]
      (any prefix of the writes loads to the old or the new table),
      [slot_roundtrip], [addUID_twice], [addUID_writes_bounds], and
      [long_uid_stored_twice] (a defect: texts over 12 characters).
    - Provision: [addPredefinedUIDs_idempotent],
      [addPredefinedUIDs_corrupt_header] (no range check on the count) and
      [addPredefinedUIDs_crash_consistent] (a power cut during the seeding
      leaves a prefix of the factory list seeded), and
      [addUID_sequence_contains] (inserts from an empty table find exactly
      what was inserted).
    - Serial: [addPredefinedUIDs_full_announces] (on a full table the
      seeding announces cards it did not add).
    - Controller: [reachable_store_wf] (the invariant of every reachable
      state, by rule induction over [step], power cuts during seeding and
      enrollment included), [debounce_window] (32-bit wrap-around),
      [enrollment_single_shot], [normal_mode_grant_deny],
      [master_card_arms], [reset_card_restores_factory],
      [grant_rereads_immediately] and [long_card_never_granted] (two
      divergences from the design), [reachable_relay_released] (the door
      is locked between passes in every reachable state), and
      [reachable_relay_output] (the relay pin is an output, set by
      [setup] before its first write, in every reachable running
      state).
    - Refinement: [loop_refines] (one pass implements the abstract
      decision, serial lines and relay writes included),
      [running_step_simulation] (every input to a running device moves
      the abstract state as the decision on the card it read, a disarm
      on a power cut, or not at all), [count_line_roundtrip] (the count
      printed at boot reads back as the count loaded), [boot_log_after_reset] and
      [enrollment_announced_before_outcome] (the card is announced as
      added before [addUID] decides).
    - Liveness: [card_read_within_debounce] and [enrolled_card_granted]
      (bounded waits of at most 3000 ms), [enrollment_terminates]
      (well-founded successful additions) and [no_reader_halts].
    - Reader: [reader_handoff_encode] (for UIDs of at most 7 bytes the
      buffer-level code gives [encode] of the bytes, which justifies the
      controller's input) and [reader_long_uid_overrun] (a 10-byte UID
      overruns the array).
    - Codec: [encode_alphabet], [encode_length], [encode_roundtrip] and
      [encode_collision] (unpadded hex is not injective: a whole family
      of pairs of UIDs render alike).

    Bounds and fuel: the code's constants are used as they are
    ([maxCards] = 50, [UIDLength] = 12, [debounceDelay] = 3000 ms,
    [millis()] on 32 bits).  Every loop of the sketch is structural over
    its bounded counter or list ([checkUID_loop] over [cardCount]
    iterations, [seed] over the factory list), so no fuel is needed and
    every definition computes.  The one fuelled definition is the digit
    loop of the Arduino core's [printNumber]: its fuel is the 32 digits of
    the core's buffer, and [printNumber_fuel] shows that 10 are enough for
    any 32-bit value.  Concrete witnesses run on the [gmap Z Z] instance of
    the EEPROM.  The device invariant assumes a reader whose UIDs render to
    at most 12 characters (4-byte UIDs always do); the 7-byte case is the
    defect the Store and Controller theorems expose.

    Not modelled: the I2C protocol of the PN532 driver ([Wire.begin],
    [nfc.begin], [SAMConfig], the frames of [getFirmwareVersion] and
    [readPassiveTargetID]): library code outside src/ whose only effect
    the sketch observes is its answers, which the controller takes as
    inputs (the firmware answer at boot and, for each poll, the time it
    blocks and the UID bytes or none; [Reader] shows how those bytes
    reach [loop]); [Serial.begin] (it configures the UART and changes
    nothing the sketch reads); the electrical side of the pins (the
    Arduino core's register writes behind [pinMode] and [digitalWrite],
    and the relay module), of which the model keeps the direction of
    the relay pin and the level last written; the transmission of the
    serial stream (the [serial] of a state is what the sketch hands to
    [Serial.print]; the Arduino core queues it in a 64-byte buffer sent
    at 9600 baud, and the [jmp 0] of line 165 or a power cut drops what
    is still queued, so the theorems speak of what is printed, not of
    what a terminal receives); the AVR reset vector (modelled by its
    effect: the program restarts at [setup] with fresh globals); and
    the time the
    code itself takes (an [EEPROM.write] takes about 3.3 ms, a serial
    byte about 1 ms at 9600 baud): [millis()] advances only by [delay],
    by the time a poll blocks and by [Tick] between steps.  Nothing reads
    [millis()] between the stamp of line 112 and the end of a pass, so
    that time only shifts the times of the relay log by the few
    milliseconds of printing. *)

From stdpp Require Export base list gmap.
From Stdlib Require Export ZArith Ascii.
From Stdlib Require String.
Export String.StringSyntax.

Declare Scope hodor_scope.
Delimit Scope hodor_scope with hodor.
#[local] Open Scope Z_scope.

(** ** Machine widths *)

(** [unsigned long] arithmetic of the AVR (32 bits). *)
Definition wrap32 (z : Z) : Z := z mod 2 ^ 32.

(** The conversion of an [int] to [uint8_t] when it is written to a cell. *)
Definition to_u8 (z : Z) : Z := z mod 256.

(** ** Arduino strings as lists of character codes *)

(** A string literal of the sketch. *)
Definition str (s : String.string) : list Z :=
  map (fun a => Z.of_N (N_of_ascii a)) (String.list_ascii_of_string s).
Arguments str s%_string_scope.

(** [String(const char* )]: the characters up to the first NUL. *)
Fixpoint cstr (l : list Z) : list Z :=
  match l with
  | [] => []
  | c :: l' => if Z.eqb c 0 then [] else c :: cstr l'
  end.

(** [String::operator==]: equal lengths and equal characters.  The strings
    compared by the sketch never hold a NUL, so [strcmp] inside it sees the
    whole string. *)
Definition str_eq (a b : list Z) : bool := bool_decide (a = b).

Notation "a == b" := (str_eq a b) (at level 70, no associativity) : hodor_scope.

(** A string without NUL characters (what a [String] built by [+=] of hex
    digits always is). *)
Definition no_nul (s : list Z) : Prop := Forall (fun c => c <> 0) s.

#[export] Instance no_nul_dec s : Decision (no_nul s).
Proof. unfold no_nul. apply _. Defined.

Create HintDb hodor discriminated.
#[export] Hint Constants Transparent : hodor.
Create Rewrite HintDb hodor_rw.

(** ** Generic lemmas *)

Lemma wrap32_range z : 0 <= wrap32 z < 2 ^ 32.
Proof. apply Z.mod_pos_bound. lia. Qed.

Lemma wrap32_small z : 0 <= z < 2 ^ 32 -> wrap32 z = z.
Proof. apply Z.mod_small. Qed.

(** The time elapsed between a 32-bit stamp [t] and the counter after [d]
    more milliseconds is [d], across the wrap-around of the counter. *)
Lemma wrap32_elapsed t d :
  0 <= d < 2 ^ 32 -> wrap32 (wrap32 (t + d) - t) = d.
Proof.
  intros Hd. unfold wrap32.
  rewrite Zminus_mod_idemp_l. replace (t + d - t) with d by lia.
  by apply Z.mod_small.
Qed.

(** Consecutive [delay]s add up modulo 2^32. *)
Lemma wrap32_add_wrap a b : wrap32 (wrap32 a + b) = wrap32 (a + b).
Proof. unfold wrap32. apply Zplus_mod_idemp_l. Qed.

Lemma wrap32_sub_wrap a b : wrap32 (a - wrap32 b) = wrap32 (a - b).
Proof. unfold wrap32. apply Zminus_mod_idemp_r. Qed.

Lemma wrap32_wrap_sub a b : wrap32 (wrap32 a - b) = wrap32 (a - b).
Proof. unfold wrap32. apply Zminus_mod_idemp_l. Qed.

(** Some wait of at most [w] ms brings the time elapsed since [l] to at
    least [w]. *)
Lemma wrap32_reach t l w :
  0 <= w < 2 ^ 32 ->
  exists d, 0 <= d <= w /\ w <= wrap32 (wrap32 (t + d) - l).
Proof.
  intros Hw. pose proof (wrap32_range (t - l)) as Hx.
  destruct (Z_lt_le_dec (wrap32 (t - l)) w) as [Hlt|Hge].
  - exists (w - wrap32 (t - l)). split; [lia|].
    rewrite wrap32_wrap_sub. replace (t + (w - wrap32 (t - l)) - l) with (wrap32 (t - l) + (w - wrap32 (t - l)) + (t - l - wrap32 (t - l))) by lia.
    unfold wrap32 at 1. rewrite <- Zplus_mod_idemp_r.
    replace ((t - l - wrap32 (t - l)) mod 2 ^ 32) with 0.
    + rewrite Z.add_0_r, Z.mod_small; lia.
    + unfold wrap32. rewrite Zminus_mod, Z.mod_mod, Z.sub_diag by lia. done.
  - exists 0. split; [lia|]. by rewrite Z.add_0_r, wrap32_wrap_sub.
Qed.

Lemma to_u8_small z : 0 <= z < 256 -> to_u8 z = z.
Proof. apply Z.mod_small. Qed.

Lemma str_eq_spec a b : reflect (a = b) (a == b)%hodor.
Proof. unfold str_eq. apply bool_decide_reflect. Qed.

Lemma str_eq_true a b : (a == b)%hodor = true <-> a = b.
Proof. unfold str_eq. apply bool_decide_eq_true. Qed.

Lemma str_eq_refl a : (a == a)%hodor = true.
Proof. by apply str_eq_true. Qed.

Lemma cstr_no_nul s : no_nul s -> cstr s = s.
Proof.
  induction 1 as [|c s Hc _ IH]; [done|]. simpl.
  destruct (Z.eqb_spec c 0); [done|]. by rewrite IH.
Qed.

Lemma cstr_app_nul s r : no_nul s -> cstr (s ++ 0 :: r) = s.
Proof.
  induction 1 as [|c s Hc _ IH]; [done|]. simpl.
  destruct (Z.eqb_spec c 0); [done|]. by rewrite IH.
Qed.

Lemma cstr_no_nul_result l : no_nul (cstr l).
Proof.
  induction l as [|c l IH]; simpl; [constructor|].
  destruct (Z.eqb_spec c 0); constructor; auto.
Qed.

Lemma no_nul_take n s : no_nul s -> no_nul (take n s).
Proof. apply Forall_take. Qed.

Lemma cstr_length_le l : (length (cstr l) <= length l)%nat.
Proof. induction l as [|c l IH]; simpl; [lia|]. destruct (c =? 0); simpl; lia. Qed.

#[export] Hint Resolve wrap32_range cstr_no_nul_result no_nul_take : hodor.
#[export] Hint Rewrite cstr_app_nul cstr_no_nul using (by eauto with hodor) : hodor_rw.
#[export] Hint Rewrite str_eq_refl wrap32_add_wrap : hodor_rw.

(** Case analysis on a string comparison of the sketch. *)
Ltac case_str_eq a b :=
  destruct (str_eq_spec a b); simplify_eq.

(** Close an equation between two states of the sketch whose [millis()]
    times differ only in how the [delay]s are grouped modulo 2^32. *)
Ltac wrap32_norm :=
  repeat (first [ rewrite wrap32_add_wrap | rewrite <- Z.add_assoc ]).

Ltac wrap32_congr :=
  wrap32_norm;
  repeat (first [ done
                | match goal with |- wrap32 _ = wrap32 _ => apply (f_equal wrap32); lia end
                | f_equal ]).

(** Turn the boolean guards of the modelled code into propositions. *)
Ltac hodor_bool :=
  repeat match goal with
  | H : (_ <? _) = true |- _ => apply Z.ltb_lt in H
  | H : (_ <? _) = false |- _ => apply Z.ltb_ge in H
  | H : (_ =? _) = true |- _ => apply Z.eqb_eq in H
  | H : (_ =? _) = false |- _ => apply Z.eqb_neq in H
  | H : str_eq _ _ = true |- _ => apply str_eq_true in H
  end.
