(* ===== verification/Codec.v ===== *)
(** * Codec: the text of a card UID (main.cpp lines 113-118)

    [loop] turns the [uidLength] raw bytes the reader returns into a
    [String] by appending [String(uid[i], HEX)] for each byte and then
    calling [content.toUpperCase()].  [String(uint8_t, HEX)] is [utoa]
    in base 16: lower-case digits, no leading zero, so a byte below 0x10
    gives one character.  This file models the three steps and proves the
    alphabet and length of the result, the round trip for bytes that give
    two digits, and the collisions the missing padding causes. *)

From S2P Require Import Prelude.
#[local] Open Scope Z_scope.
#[local] Open Scope hodor_scope.

(** ** Definitions *)

(** The digit [utoa] writes for a value below the base (avr-libc writes
    lower-case letters). *)
Definition hex_digit (d : Z) : Z :=
  if d <? 10 then 48 + d else 97 + (d - 10).

(** [String(uint8_t value, HEX)]: the base-16 digits of a byte, most
    significant first, without leading zero ([utoa] of a value below 256
    has at most two digits). *)
Definition String_HEX (value : Z) : list Z :=
  let v := to_u8 value in
  if v <? 16 then [hex_digit v] else [hex_digit (v / 16); hex_digit (v mod 16)].

(** [String::toUpperCase]: [toupper] on each character. *)
Definition toUpperCase (s : list Z) : list Z :=
  map (fun c => if (97 <=? c) && (c <=? 122) then c - 32 else c) s.

(** The loop of lines 113-118: [content] starts empty, receives
    [String(uid[i], HEX)] for [i] from 0 to [uidLength - 1], and is
    upper-cased. *)
Definition encode (uid : list Z) : list Z :=
  toUpperCase (fold_left (fun content b => content ++ String_HEX b) uid []).

(** The characters of the upper-case hexadecimal alphabet. *)
Definition is_hex_upper (c : Z) : bool :=
  ((48 <=? c) && (c <=? 57)) || ((65 <=? c) && (c <=? 70)).

(** A two-digit reading of an upper-case hex string, the inverse of
    [encode] on bytes of two digits. *)
Definition hex_value (c : Z) : Z := if c <=? 57 then c - 48 else c - 55.

Fixpoint decode_pairs (s : list Z) : list Z :=
  match s with
  | hi :: lo :: rest => (hex_value hi * 16 + hex_value lo) :: decode_pairs rest
  | _ => []
  end.

(** ** Lemmas *)

Lemma encode_concat uid :
  encode uid = toUpperCase (concat (map String_HEX uid)).
Proof.
  unfold encode. f_equal.
  cut (forall acc, fold_left (fun c b => c ++ String_HEX b) uid acc
                   = acc ++ concat (map String_HEX uid)).
  { intros ->. done. }
  induction uid as [|b uid IH]; intros acc; simpl; [by rewrite app_nil_r|].
  by rewrite IH, app_assoc.
Qed.

Lemma toUpperCase_app s t : toUpperCase (s ++ t) = toUpperCase s ++ toUpperCase t.
Proof. apply map_app. Qed.

Lemma encode_cons b uid :
  encode (b :: uid) = toUpperCase (String_HEX b) ++ encode uid.
Proof. rewrite !encode_concat. simpl. apply toUpperCase_app. Qed.

Lemma to_u8_range v : 0 <= to_u8 v < 256.
Proof. apply Z.mod_pos_bound. lia. Qed.

(** The upper-cased rendering of one byte, digit by digit. *)
Lemma upper_hex_digit d :
  0 <= d < 16 ->
  toUpperCase [hex_digit d] = [if d <? 10 then 48 + d else 55 + d].
Proof.
  intros Hd. unfold toUpperCase, hex_digit. simpl. f_equal. f_equal.
  destruct (Z.ltb_spec d 10);
    repeat match goal with |- context [?a <=? ?b] => destruct (Z.leb_spec a b) end;
    simpl; lia.
Qed.

Lemma hex_digit_upper_ok d :
  0 <= d < 16 -> Forall (fun c => is_hex_upper c = true) (toUpperCase [hex_digit d]).
Proof.
  intros Hd. rewrite upper_hex_digit by done. constructor; [|constructor].
  unfold is_hex_upper. destruct (Z.ltb_spec d 10);
    repeat match goal with |- context [?a <=? ?b] => destruct (Z.leb_spec a b) end;
    simpl; lia.
Qed.

Lemma String_HEX_upper_ok b :
  Forall (fun c => is_hex_upper c = true) (toUpperCase (String_HEX b)).
Proof.
  pose proof (to_u8_range b). unfold String_HEX.
  destruct (Z.ltb_spec (to_u8 b) 16).
  - apply hex_digit_upper_ok. lia.
  - change [hex_digit (to_u8 b / 16); hex_digit (to_u8 b mod 16)]
      with ([hex_digit (to_u8 b / 16)] ++ [hex_digit (to_u8 b mod 16)]).
    rewrite toUpperCase_app. apply Forall_app; split; apply hex_digit_upper_ok.
    + split; [apply Z.div_pos|apply Z.div_lt_upper_bound]; lia.
    + apply Z.mod_pos_bound; lia.
Qed.

Lemma String_HEX_length b :
  (1 <= length (String_HEX b) <= 2)%nat.
Proof. unfold String_HEX. destruct (_ <? 16); simpl; lia. Qed.

Lemma toUpperCase_length s : length (toUpperCase s) = length s.
Proof. apply length_map. Qed.

Lemma is_hex_upper_not_nul c : is_hex_upper c = true -> c <> 0.
Proof.
  unfold is_hex_upper. intros H ->. discriminate.
Qed.

(** A byte of two hex digits renders as its two digits rendered
    separately: the rendering does not mark where a byte ends. *)
Lemma String_HEX_split a b :
  1 <= a < 16 -> 0 <= b < 16 -> String_HEX (16 * a + b) = String_HEX a ++ String_HEX b.
Proof.
  intros Ha Hb. unfold String_HEX. rewrite !to_u8_small by lia.
  destruct (Z.ltb_spec (16 * a + b) 16); [lia|].
  destruct (Z.ltb_spec a 16), (Z.ltb_spec b 16); try lia.
  rewrite <- (Z.div_unique (16 * a + b) 16 a b), <- (Z.mod_unique (16 * a + b) 16 a b) by lia.
  done.
Qed.

#[export] Hint Resolve String_HEX_upper_ok is_hex_upper_not_nul : hodor.

(** Every character of a rendering is an upper-case hex digit. *)
Lemma encode_hex_upper uid : Forall (fun c => is_hex_upper c = true) (encode uid).
Proof.
  induction uid as [|b uid IH]; [constructor|].
  rewrite encode_cons. apply Forall_app. auto with hodor.
Qed.

(** ** Properties *)

(** C18: every character of a rendered UID is an upper-case
    hexadecimal digit, so the rendering never holds a NUL and survives
    the [String(const char* )] of [readUIDFromEEPROM]. *)
Theorem encode_alphabet uid :
  Forall (fun c => is_hex_upper c = true) (encode uid) /\ no_nul (encode uid).
Proof.
  pose proof (encode_hex_upper uid) as Hf. split; [done|]. eapply Forall_impl; [exact Hf|]. auto with hodor.
Qed.

(** C19: a UID of [n] bytes renders to between [n] and [2 n]
    characters. *)
Theorem encode_length uid :
  (length uid <= length (encode uid) <= 2 * length uid)%nat.
Proof.
  induction uid as [|b uid IH]; [simpl; lia|].
  rewrite encode_cons, length_app, toUpperCase_length.
  pose proof (String_HEX_length b). simpl. lia.
Qed.

(** A byte of two hex digits reads back from its upper-cased rendering. *)
Lemma decode_String_HEX b rest :
  16 <= b < 256 ->
  decode_pairs (toUpperCase (String_HEX b) ++ rest) = b :: decode_pairs rest.
Proof.
  intros Hb. unfold String_HEX. rewrite to_u8_small by lia.
  destruct (Z.ltb_spec b 16); [lia|].
  change [hex_digit (b / 16); hex_digit (b mod 16)]
    with ([hex_digit (b / 16)] ++ [hex_digit (b mod 16)]).
  assert (0 <= b / 16 < 16) by (split; [apply Z.div_pos|apply Z.div_lt_upper_bound]; lia).
  assert (0 <= b mod 16 < 16) by (apply Z.mod_pos_bound; lia).
  rewrite toUpperCase_app, !upper_hex_digit by done. simpl. f_equal.
  pose proof (Z.div_mod b 16 ltac:(lia)).
  unfold hex_value.
  destruct (Z.ltb_spec (b / 16) 10), (Z.ltb_spec (b mod 16) 10);
    repeat match goal with |- context [?a <=? ?b] => destruct (Z.leb_spec a b) end;
    lia.
Qed.

(** C20: on UIDs whose bytes all lie in [0x10, 0xFF] (two digits
    each) the rendering is injective: reading it back in pairs gives the
    bytes. *)
Theorem encode_roundtrip uid :
  Forall (fun b => 16 <= b < 256) uid -> decode_pairs (encode uid) = uid.
Proof.
  induction 1 as [|b uid Hb _ IH]; [done|].
  by rewrite encode_cons, decode_String_HEX, IH.
Qed.

Lemma encode_roundtrip_witness :
  Forall (fun b => 16 <= b < 256) [0xD3; 0xEC; 0x2B; 0x28] /\
  decode_pairs (encode [0xD3; 0xEC; 0x2B; 0x28]) = [0xD3; 0xEC; 0x2B; 0x28].
Proof.
  split; [repeat constructor; lia|].
  apply encode_roundtrip. repeat constructor; lia.
Defined.

(** C21: without per-byte padding the rendering is not injective: in
    any UID, a byte below 0x10 followed by a byte of two digits can be
    regrouped into a byte of two digits followed by one below 0x10 (for
    instance [01 23] and [12 03] both give "123"), and the two different
    UIDs render to the same text, so one card is taken for the other by
    every later comparison. *)
Theorem encode_collision p q a b c :
  1 <= a < 16 -> 1 <= b < 16 -> 0 <= c < 16 ->
  p ++ a :: (16 * b + c) :: q <> p ++ (16 * a + b) :: c :: q /\
  encode (p ++ a :: (16 * b + c) :: q) = encode (p ++ (16 * a + b) :: c :: q).
Proof.
  intros Ha Hb Hc. split.
  - intros Heq. apply app_inv_head in Heq. injection Heq as Heq _. lia.
  - rewrite !encode_concat, !map_app. cbn [map concat].
    rewrite (String_HEX_split b c), (String_HEX_split a b) by lia.
    rewrite !concat_app. cbn [concat]. by rewrite <- !app_assoc.
Qed.

Lemma encode_collision_witness :
  (1 <= 1 < 16) /\ (1 <= 2 < 16) /\ (0 <= 3 < 16) /\
  [] ++ 1 :: (16 * 2 + 3) :: [] <> [] ++ (16 * 1 + 2) :: 3 :: [] /\
  encode ([] ++ 1 :: (16 * 2 + 3) :: []) = encode ([] ++ (16 * 1 + 2) :: 3 :: []).
Proof.
  assert (H1 : 1 <= 1 < 16) by lia. assert (H2 : 1 <= 2 < 16) by lia.
  assert (H3 : 0 <= 3 < 16) by lia.
  split; [exact H1|]. split; [exact H2|]. split; [exact H3|].
  exact (encode_collision [] [] 1 2 3 H1 H2 H3).
Defined.
