(* ===== verification/Reader.v ===== *)
(** * Reader: the hand-off from the PN532 driver to [loop] (main.cpp
      lines 104-118)

    [loop] declares [uint8_t uid[] = { 0, 0, 0, 0, 0, 0, 0 }] and
    [uint8_t uidLength], lets [nfc.readPassiveTargetID] fill them, and
    renders [uid[0 .. uidLength-1]] with [String(uid[i], HEX)].  The
    driver (Adafruit_PN532, not under src/) copies the [uidLength] bytes
    of the card's answer into the caller's array one by one, without
    checking them against the size of the array.  A store into a C array
    is [set_u8], which fails ([None]) out of bounds: that is undefined
    behaviour in C, a write over whatever follows [uid] on the stack.

    [poll_card] is the whole hand-off: the answer of the reader (no
    card, or the bytes of its UID) to the text [loop] compares, or [None]
    when the code has undefined behaviour.  The theorems show that for
    UIDs of at most 7 bytes it is [Some (encode bytes)], which is why
    [Controller] can take the UID bytes as its input and apply
    [Codec.encode] to them, and that a longer UID (ISO 14443-A allows 10
    bytes) overruns the array. *)

From S2P Require Import Prelude Codec.
#[local] Open Scope Z_scope.

(** ** The array and its accesses *)

(** Line 105: [uint8_t uid[] = { 0, 0, 0, 0, 0, 0, 0 };] *)
Definition uid_init : list Z := [0; 0; 0; 0; 0; 0; 0].

(** An index inside the array. *)
Definition in_bound (buf : list Z) (i : Z) : bool := (0 <=? i) && (i <? Z.of_nat (length buf)).

(** [buf[i] = v] on a [uint8_t] array. *)
Definition set_u8 (buf : list Z) (i v : Z) : option (list Z) :=
  if in_bound buf i then Some (<[Z.to_nat i := to_u8 v]> buf) else None.

(** [buf[i]] on a [uint8_t] array. *)
Definition get_u8 (buf : list Z) (i : Z) : option Z :=
  if in_bound buf i then buf !! Z.to_nat i else None.

(** ** The driver and the rendering *)

(** The copy of [readPassiveTargetID]: [uid[i] = answer[i]] for each
    byte of the answer, from index [i]. *)
Fixpoint copy_uid (buf : list Z) (i : Z) (bytes : list Z) : option (list Z) :=
  match bytes with
  | [] => Some buf
  | b :: bytes' =>
      match set_u8 buf i b with
      | Some buf' => copy_uid buf' (i + 1) bytes'
      | None => None
      end
  end.

(** What the call of line 109 leaves: [success] is 0, or [uid] and
    [uidLength] are filled, or the copy ran past the array. *)
Inductive poll_outcome := NoCard | Read (uid : list Z) (uidLength : Z) | Overrun.

(** [nfc.readPassiveTargetID(PN532_MIFARE_ISO14443A, uid, &uidLength)]
    on the card answer [card] ([None]: no card in the field). *)
Definition readPassiveTargetID (buf : list Z) (card : option (list Z)) : poll_outcome :=
  match card with
  | None => NoCard
  | Some bytes =>
      match copy_uid buf 0 bytes with
      | Some buf' => Read buf' (to_u8 (Z.of_nat (length bytes)))
      | None => Overrun
      end
  end.

(** Lines 115-117: [for (uint8_t i = 0; i < uidLength; i++)
    content += String(uid[i], HEX);], one iteration per unit of [fuel]
    (the loop runs [uidLength] times). *)
Fixpoint render_uid (uid : list Z) (i : Z) (fuel : nat) (content : list Z) : option (list Z) :=
  match fuel with
  | O => Some content
  | S f =>
      match get_u8 uid i with
      | Some b => render_uid uid (i + 1) f (content ++ String_HEX b)
      | None => None
      end
  end.

(** Lines 113-118: [content] starts empty, is filled and upper-cased. *)
Definition read_content (uid : list Z) (uidLength : Z) : option (list Z) :=
  match render_uid uid 0 (Z.to_nat uidLength) [] with
  | Some content => Some (toUpperCase content)
  | None => None
  end.

(** Lines 104-118: the poll and the rendering; [Some None] when no card
    was read, [Some (Some content)] for a card, [None] for undefined
    behaviour. *)
Definition poll_card (card : option (list Z)) : option (option (list Z)) :=
  match readPassiveTargetID uid_init card with
  | NoCard => Some None
  | Read uid n =>
      match read_content uid n with
      | Some content => Some (Some content)
      | None => None
      end
  | Overrun => None
  end.

(** A byte as the reader sends it. *)
Definition is_byte (b : Z) : Prop := 0 <= b < 256.

(** ** Lemmas *)

Lemma in_bound_app pre rest i :
  in_bound (pre ++ rest) (Z.of_nat (length pre) + Z.of_nat i) = bool_decide (i < length rest)%nat.
Proof.
  unfold in_bound. rewrite length_app.
  destruct (bool_decide_reflect (i < length rest)%nat) as [Hi|Hi].
  - apply andb_true_intro. split; [apply Z.leb_le|apply Z.ltb_lt]; lia.
  - apply andb_false_intro2. apply Z.ltb_ge. lia.
Qed.

(** The copy into an array split at the index [length pre]. *)
Lemma copy_uid_fits pre rest bytes :
  (length bytes <= length rest)%nat ->
  copy_uid (pre ++ rest) (Z.of_nat (length pre)) bytes
  = Some (pre ++ map to_u8 bytes ++ drop (length bytes) rest).
Proof.
  revert pre rest. induction bytes as [|b bytes IH]; intros pre rest Hlen; [done|].
  destruct rest as [|r rest]; cbn [length] in Hlen; [lia|].
  cbn [copy_uid]. unfold set_u8.
  pose proof (in_bound_app pre (r :: rest) 0) as Hb. rewrite Z.add_0_r in Hb. rewrite Hb.
  rewrite bool_decide_eq_true_2 by (cbn; lia).
  rewrite Nat2Z.id, insert_app_r_alt, Nat.sub_diag by lia.
  change (<[0%nat := to_u8 b]> (r :: rest)) with (to_u8 b :: rest).
  replace (Z.of_nat (length pre) + 1) with (Z.of_nat (length (pre ++ [to_u8 b]))) by
    (rewrite length_app; cbn; lia).
  replace (pre ++ to_u8 b :: rest) with ((pre ++ [to_u8 b]) ++ rest) by (by rewrite <- app_assoc).
  rewrite IH by lia. by rewrite <- app_assoc.
Qed.

(** The copy of more bytes than the array has room for fails. *)
Lemma copy_uid_overrun pre rest bytes :
  (length rest < length bytes)%nat ->
  copy_uid (pre ++ rest) (Z.of_nat (length pre)) bytes = None.
Proof.
  revert pre rest. induction bytes as [|b bytes IH]; intros pre rest Hlen; cbn [length] in Hlen;
    [lia|].
  cbn [copy_uid]. unfold set_u8.
  pose proof (in_bound_app pre rest 0) as Hb. rewrite Z.add_0_r in Hb. rewrite Hb.
  destruct rest as [|r rest]; [by rewrite bool_decide_eq_false_2 by (cbn; lia)|].
  rewrite bool_decide_eq_true_2 by (cbn; lia).
  rewrite Nat2Z.id, insert_app_r_alt, Nat.sub_diag by lia.
  change (<[0%nat := to_u8 b]> (r :: rest)) with (to_u8 b :: rest).
  replace (Z.of_nat (length pre) + 1) with (Z.of_nat (length (pre ++ [to_u8 b]))) by
    (rewrite length_app; cbn; lia).
  replace (pre ++ to_u8 b :: rest) with ((pre ++ [to_u8 b]) ++ rest) by (by rewrite <- app_assoc).
  apply IH. cbn in Hlen. lia.
Qed.

(** The rendering loop reads the bytes after the index [length pre]. *)
Lemma render_uid_fits pre rest n content :
  (n <= length rest)%nat ->
  render_uid (pre ++ rest) (Z.of_nat (length pre)) n content
  = Some (content ++ concat (map String_HEX (take n rest))).
Proof.
  revert pre rest content. induction n as [|n IH]; intros pre rest content Hn.
  { cbn. by rewrite app_nil_r. }
  destruct rest as [|r rest]; cbn [length] in Hn; [lia|].
  cbn [render_uid]. unfold get_u8.
  pose proof (in_bound_app pre (r :: rest) 0) as Hb. rewrite Z.add_0_r in Hb. rewrite Hb.
  rewrite bool_decide_eq_true_2 by (cbn; lia).
  rewrite Nat2Z.id, lookup_app_r, Nat.sub_diag by lia. cbn [lookup list_lookup].
  replace (Z.of_nat (length pre) + 1) with (Z.of_nat (length (pre ++ [r]))) by
    (rewrite length_app; cbn; lia).
  replace (pre ++ r :: rest) with ((pre ++ [r]) ++ rest) by (by rewrite <- app_assoc).
  rewrite IH by lia. cbn [take map concat]. by rewrite <- app_assoc.
Qed.

Lemma map_to_u8_bytes bytes : Forall is_byte bytes -> map to_u8 bytes = bytes.
Proof.
  induction 1 as [|b bytes Hb _ IH]; [done|]. cbn. by rewrite IH, to_u8_small.
Qed.

(** ** Properties *)

(** C35: the hand-off of lines 104-118 is the input [Controller] takes:
    with no card in the field [loop] reads nothing, and for a card whose
    UID has at most 7 bytes the buffer filled by the driver and rendered
    by the indexed loop gives [encode] of the UID bytes. *)
Theorem reader_handoff_encode bytes :
  Forall is_byte bytes -> (length bytes <= 7)%nat ->
  poll_card None = Some None /\ poll_card (Some bytes) = Some (Some (encode bytes)).
Proof.
  intros Hb Hlen. split; [done|].
  unfold poll_card, readPassiveTargetID, uid_init.
  pose proof (copy_uid_fits [] [0; 0; 0; 0; 0; 0; 0] bytes) as Hc. cbn [app length] in Hc. change (Z.of_nat 0) with 0 in Hc.
  rewrite Hc by lia. rewrite map_to_u8_bytes by done.
  rewrite to_u8_small by lia. unfold read_content. rewrite Nat2Z.id.
  pose proof (render_uid_fits [] (bytes ++ drop (length bytes) [0; 0; 0; 0; 0; 0; 0])
                (length bytes) []) as Hr.
  cbn [app length] in Hr. change (Z.of_nat 0) with 0 in Hr. rewrite Hr by (rewrite length_app, length_drop; cbn; lia).
  rewrite take_app_length, encode_concat. done.
Qed.

(** C36: a card whose UID is longer than 7 bytes (ISO 14443-A triple-size
    UIDs have 10) makes the driver write past the end of [uid]: the code
    of line 109 has undefined behaviour. *)
Theorem reader_long_uid_overrun bytes :
  (7 < length bytes)%nat -> poll_card (Some bytes) = None.
Proof.
  intros Hlen. unfold poll_card, readPassiveTargetID, uid_init.
  pose proof (copy_uid_overrun [] [0; 0; 0; 0; 0; 0; 0] bytes) as Hc. cbn [app length] in Hc. change (Z.of_nat 0) with 0 in Hc.
  by rewrite Hc by lia.
Qed.

Lemma reader_handoff_encode_witness :
  Forall is_byte [0xD3; 0xEC; 0x2B; 0x28] /\ (length [0xD3; 0xEC; 0x2B; 0x28] <= 7)%nat /\
  poll_card (Some [0xD3; 0xEC; 0x2B; 0x28]) = Some (Some (encode [0xD3; 0xEC; 0x2B; 0x28])).
Proof.
  assert (H1 : Forall is_byte [0xD3; 0xEC; 0x2B; 0x28])
    by (repeat constructor; unfold is_byte; lia).
  assert (H2 : (length [0xD3; 0xEC; 0x2B; 0x28] <= 7)%nat) by (cbn; lia).
  split; [exact H1|]. split; [exact H2|].
  exact (proj2 (reader_handoff_encode [0xD3; 0xEC; 0x2B; 0x28] H1 H2)).
Defined.

(** A triple-size UID of 10 bytes. *)
Definition triple_uid : list Z := [0x08; 0x11; 0x22; 0x33; 0x44; 0x55; 0x66; 0x77; 0x88; 0x99].

Lemma reader_long_uid_overrun_witness :
  (7 < length triple_uid)%nat /\ poll_card (Some triple_uid) = None.
Proof.
  assert (H : (7 < length triple_uid)%nat) by (cbn; lia).
  split; [exact H|]. exact (reader_long_uid_overrun triple_uid H).
Defined.
