(* ===== verification/Eeprom.v ===== *)
(** * Eeprom: the byte-addressable non-volatile memory the store uses

    The sketch reaches the EEPROM only through [EEPROM.read(addr)] and
    [EEPROM.write(addr, value)] of the Arduino library.  [EepromOps] is that
    interface; [EepromLaws] is what the store relies on: a cell holds a
    byte, a write of an [int] keeps its low byte ([uint8_t] parameter), a
    read returns the last value written to that address and a write leaves
    every other address alone.  [ee_write_all] applies a sequence of writes
    in order, the shape in which the store issues them.  The instance on
    [gmap Z Z] reads an address never written as 0xFF, the erased state of
    the AVR EEPROM. *)

From S2P Require Import Prelude.
#[local] Open Scope Z_scope.

Class EepromOps (E : Type) := {
  ee_read : E -> Z -> Z;
  ee_write : E -> Z -> Z -> E
}.

Class EepromLaws (E : Type) `{!EepromOps E} := {
  ee_read_range : forall e a, 0 <= ee_read e a < 256;
  ee_read_write_eq : forall e a v, ee_read (ee_write e a v) a = to_u8 v;
  ee_read_write_ne : forall e a b v, a <> b -> ee_read (ee_write e a v) b = ee_read e b
}.

(** A sequence of [EEPROM.write] calls, issued left to right. *)
Definition ee_write_all `{EepromOps E} (e : E) (ws : list (Z * Z)) : E :=
  fold_left (fun e '(a, v) => ee_write e a v) ws e.

(** The EEPROM as a finite map from addresses to the values written;
    unwritten cells read 0xFF. *)
#[export] Instance gmap_eeprom_ops : EepromOps (gmap Z Z) := {
  ee_read m a := to_u8 (default 255 (m !! a));
  ee_write m a v := <[a := to_u8 v]> m
}.

Section Laws.
Context `{EepromLaws E}.

Lemma ee_write_all_app (e : E) ws1 ws2 :
  ee_write_all e (ws1 ++ ws2) = ee_write_all (ee_write_all e ws1) ws2.
Proof. unfold ee_write_all. apply fold_left_app. Qed.

Lemma ee_write_all_snoc (e : E) ws a v :
  ee_write_all e (ws ++ [(a, v)]) = ee_write (ee_write_all e ws) a v.
Proof. by rewrite ee_write_all_app. Qed.

(** Writes to addresses other than [b] do not change what [b] reads. *)
Lemma ee_write_all_frame (e : E) ws b :
  Forall (fun w => fst w <> b) ws -> ee_read (ee_write_all e ws) b = ee_read e b.
Proof.
  revert e. induction ws as [|[a v] ws IH]; intros e Hws; [done|].
  inversion Hws as [|? ? Ha Hrest]; subst. simpl in *.
  rewrite IH by done. by apply ee_read_write_ne.
Qed.

(** The last write to [b] in a sequence decides what [b] reads. *)
Lemma ee_write_all_last (e : E) ws1 b v ws2 :
  Forall (fun w => fst w <> b) ws2 ->
  ee_read (ee_write_all e (ws1 ++ (b, v) :: ws2)) b = to_u8 v.
Proof.
  intros Hws. rewrite ee_write_all_app. simpl.
  rewrite ee_write_all_frame by done. apply ee_read_write_eq.
Qed.
End Laws.

#[export] Instance gmap_eeprom_laws : EepromLaws (gmap Z Z).
Proof.
  split; simpl.
  - intros e a. unfold to_u8. apply Z.mod_pos_bound. lia.
  - intros e a v. rewrite lookup_insert_eq. simpl. unfold to_u8. apply Zmod_mod.
  - intros e a b v Hab. by rewrite lookup_insert_ne.
Qed.

#[export] Hint Resolve ee_read_range : hodor.

Section Blocks.
Context `{EepromLaws E}.

(** A block of writes [(base + k, f k)] for distinct offsets [k]: the
    cell [base + k] reads back the low byte of [f k]. *)
Lemma ee_write_block_read (e : E) base f l k :
  NoDup l -> k ∈ l ->
  ee_read (ee_write_all e ((fun k => (base + k, f k)) <$> l)) (base + k) = to_u8 (f k).
Proof.
  intros Hnd. revert e. induction Hnd as [|k0 l Hk0 Hnd IH]; intros e Hin;
    [by apply not_elem_of_nil in Hin|].
  simpl. destruct (decide (k = k0)) as [->|Hne].
  - rewrite ee_write_all_frame; [apply ee_read_write_eq|].
    apply Forall_fmap, Forall_forall. intros k' Hk'. simpl. intros Heq.
    assert (k' = k0) as -> by lia. done.
  - apply IH. by apply elem_of_cons in Hin as [->|].
Qed.
End Blocks.
