(* ===== verification/Store.v ===== *)
(** * Store: the card table in EEPROM (main.cpp lines 11-13, 89, 161-210)

    The table is byte 0 (the count) followed by [maxCards] slots of
    [UIDLength] bytes; the in-RAM [cardCount] mirrors byte 0.  A [store]
    is the pair of both, and every operation is the code's function with
    all the writes it makes, in order, over the [EepromOps] interface.
    The lemmas are proved in a section that assumes only [EepromLaws].

    The theorems show: a slot reads back the text written into it, cut
    to 12 characters (round trip); [checkUID]'s scan is membership in the
    list of stored texts (equivalence); [addUID] implements insertion into
    a bounded duplicate-free list, with its two refusals (refinement,
    errors) and preserves the invariant; a power cut after any prefix of
    [addUID]'s writes leaves a store that loads to the old or the new
    table (crash consistency); and a text longer than a slot is never
    found and can be stored twice (a defect of the code). *)

From S2P Require Import Prelude Eeprom.
#[local] Open Scope Z_scope.
#[local] Open Scope hodor_scope.

(** ** Data *)

(** [const int maxCards = 50;] *)
Definition maxCards : Z := 50.
(** [const int UIDLength = 12;] *)
Definition UIDLength : Z := 12.

(** The EEPROM with the RAM copy [cardCount] of its byte 0. *)
Record store (E : Type) := mkStore { eeprom : E; cardCount : Z }.
Arguments mkStore {E} _ _.
Arguments eeprom {E} _.
Arguments cardCount {E} _.

(** The three messages of [addUID], as its result. *)
Inductive add_outcome := Added | AlreadyAdded | LimitExceeded.

#[export] Instance add_outcome_eq_dec : EqDecision add_outcome.
Proof. solve_decision. Defined.

(** Text a [String] of the sketch can hold in a slot: bytes, no NUL. *)
Definition is_text (s : list Z) : Prop := Forall (fun c => 0 < c < 256) s.

#[export] Instance is_text_dec s : Decision (is_text s).
Proof. unfold is_text. apply _. Defined.

Section Store.
Context `{EepromLaws E}.

(** [String::operator[]]: the character at [i], 0 past the end. *)
Definition char_at (s : list Z) (i : Z) : Z := default 0 (s !! Z.to_nat i).

(** [int start = 1 + (index * UIDLength);] *)
Definition slot_start (index : Z) : Z := 1 + index * UIDLength.

(** The writes of [saveUIDToEEPROM] (lines 194-199):
    [EEPROM.write(start + i, UID[i])] for [i] from 0 to 11. *)
Definition save_writes (index : Z) (UID : list Z) : list (Z * Z) :=
  (fun i => (slot_start index + i, char_at UID i)) <$> seqZ 0 UIDLength.

Definition saveUIDToEEPROM (e : E) (index : Z) (UID : list Z) : E :=
  ee_write_all e (save_writes index UID).

(** [readUIDFromEEPROM] (lines 202-210): the 12 bytes of the slot, a NUL
    after them, and [String(UID)], which stops at the first NUL. *)
Definition readUIDFromEEPROM (e : E) (index : Z) : list Z :=
  cstr ((fun i => ee_read e (slot_start index + i)) <$> seqZ 0 UIDLength).

(** The loop of [checkUID] (lines 184-191) from index [i] with [n]
    iterations left. *)
Fixpoint checkUID_loop (e : E) (UID : list Z) (i : Z) (n : nat) : bool :=
  match n with
  | O => false
  | S n' => if readUIDFromEEPROM e i == UID then true else checkUID_loop e UID (i + 1) n'
  end.

(** [for (int i = 0; i < cardCount; i++)]: [cardCount] iterations, none
    when it is not positive. *)
Definition checkUID (s : store E) (UID : list Z) : bool :=
  checkUID_loop (eeprom s) UID 0 (Z.to_nat (cardCount s)).

(** [addUID] (lines 169-181): the capacity guard, the duplicate guard,
    the slot write at [cardCount++], then the count write. *)
Definition addUID (s : store E) (newUID : list Z) : store E * add_outcome :=
  if cardCount s <? maxCards then
    if negb (checkUID s newUID) then
      let e1 := saveUIDToEEPROM (eeprom s) (cardCount s) newUID in
      let count := cardCount s + 1 in
      (mkStore (ee_write e1 0 count) count, Added)
    else (s, AlreadyAdded)
  else (s, LimitExceeded).

(** The [EEPROM.write] calls [addUID] makes, in order (lines 172-173). *)
Definition addUID_writes (s : store E) (newUID : list Z) : list (Z * Z) :=
  if (cardCount s <? maxCards) && negb (checkUID s newUID)
  then save_writes (cardCount s) newUID ++ [(0, cardCount s + 1)]
  else [].

(** [resetEEPROM] (lines 161-166) writes 0 to the count; the restart
    ([jmp 0]) that follows is the controller's. *)
Definition resetEEPROM (s : store E) : E := ee_write (eeprom s) 0 0.

(** [cardCount = EEPROM.read(0);] in [setup] (line 89): no range check. *)
Definition load (e : E) : store E := mkStore e (ee_read e 0).

(** ** Abstract view *)

(** The texts of the first [n] slots. *)
Definition stored_ids (e : E) (n : Z) : list (list Z) :=
  readUIDFromEEPROM e <$> seqZ 0 n.

(** The table as the code's scan sees it: the first [cardCount] slots. *)
Definition view (s : store E) : list (list Z) := stored_ids (eeprom s) (cardCount s).

(** The invariant: the count is in range and equals byte 0, and the
    stored texts are distinct. *)
Definition store_wf (s : store E) : Prop :=
  0 <= cardCount s <= maxCards /\ ee_read (eeprom s) 0 = cardCount s /\ NoDup (view s).

(** The specification of insertion into a bounded duplicate-free list. *)
Definition abs_insert (l : list (list Z)) (id : list Z) : list (list Z) * add_outcome :=
  if bool_decide (length l < Z.to_nat maxCards)%nat then
    if bool_decide (id ∈ l) then (l, AlreadyAdded) else (l ++ [id], Added)
  else (l, LimitExceeded).

(** ** Layout lemmas *)

Lemma slot_disjoint i j k k' :
  0 <= i -> 0 <= j -> 0 <= k < UIDLength -> 0 <= k' < UIDLength ->
  slot_start i + k = slot_start j + k' -> i = j /\ k = k'.
Proof. unfold slot_start, UIDLength. lia. Qed.

(** The writes of a slot miss every address outside the slot. *)
Lemma save_writes_addr index UID b :
  (forall k, 0 <= k < UIDLength -> slot_start index + k <> b) ->
  Forall (fun w => fst w <> b) (save_writes index UID).
Proof.
  intros HP. apply Forall_fmap, Forall_seqZ. intros k Hk. apply HP. lia.
Qed.

(** The 12 bytes [saveUIDToEEPROM] writes for a text are the text padded
    with NULs or cut to 12 characters. *)
Lemma char_at_block s :
  is_text s -> (fun k => to_u8 (char_at s k)) <$> seqZ 0 UIDLength = resize 12 0 s.
Proof.
  intros Hs. apply list_eq. intros i. rewrite list_lookup_fmap.
  destruct (decide (i < 12)%nat) as [Hi|Hi].
  - rewrite lookup_seqZ_lt by (unfold UIDLength; lia). simpl. unfold char_at.
    rewrite Z.add_0_l, Nat2Z.id.
    destruct (decide (i < length s)%nat) as [Hl|Hl].
    + rewrite lookup_resize by done.
      destruct (lookup_lt_is_Some_2 s i Hl) as [c Hc]. rewrite Hc. simpl.
      f_equal. apply to_u8_small. eapply Forall_lookup_1 in Hs; [|exact Hc]. lia.
    + rewrite lookup_resize_new by lia. rewrite lookup_ge_None_2 by lia. done.
  - rewrite lookup_seqZ_ge by (unfold UIDLength; lia). rewrite lookup_resize_old by lia.
    done.
Qed.

Lemma is_text_no_nul s : is_text s -> no_nul s.
Proof. intros Hs. eapply Forall_impl; [exact Hs|]. simpl. lia. Qed.

Lemma cstr_resize s : no_nul s -> cstr (resize 12 0 s) = take 12 s.
Proof.
  intros Hs. rewrite resize_spec.
  destruct (decide (12 <= length s)%nat).
  - replace (12 - length s)%nat with 0%nat by lia. rewrite app_nil_r.
    apply cstr_no_nul, no_nul_take, Hs.
  - rewrite take_ge by lia. replace (12 - length s)%nat with (S (11 - length s)) by lia.
    by apply cstr_app_nul.
Qed.

(** A slot reads back the text last saved into it, cut to 12 characters. *)
Lemma read_save_same e i s :
  0 <= i -> is_text s ->
  readUIDFromEEPROM (saveUIDToEEPROM e i s) i = take 12 s.
Proof.
  intros Hi Hs. unfold readUIDFromEEPROM, saveUIDToEEPROM, save_writes.
  rewrite <- (cstr_resize s) by (by apply is_text_no_nul).
  rewrite <- (char_at_block s Hs). f_equal.
  apply list_fmap_ext. intros n k Hk. apply ee_write_block_read.
  - apply NoDup_seqZ.
  - eapply list_elem_of_lookup_2, Hk.
Qed.

(** Writes that miss a slot leave its text alone. *)
Lemma readUID_frame e ws j :
  Forall (fun w => forall k, 0 <= k < UIDLength -> fst w <> slot_start j + k) ws ->
  readUIDFromEEPROM (ee_write_all e ws) j = readUIDFromEEPROM e j.
Proof.
  intros Hws. unfold readUIDFromEEPROM. f_equal. apply list_fmap_ext.
  intros n k Hk. apply lookup_seqZ in Hk as [-> Hn].
  apply ee_write_all_frame. eapply Forall_impl; [exact Hws|]. intros w Hw. apply Hw. lia.
Qed.

Lemma save_writes_miss_slot i j s :
  0 <= i -> 0 <= j -> i <> j ->
  Forall (fun w => forall k, 0 <= k < UIDLength -> fst w <> slot_start j + k) (save_writes i s).
Proof.
  intros Hi Hj Hij. apply Forall_fmap, Forall_seqZ. intros k' Hk' k Hk Heq. simpl in Heq.
  apply slot_disjoint in Heq as [? _]; lia.
Qed.

(** Saving into slot [i] leaves every other slot as it was. *)
Lemma read_save_other e i j s :
  0 <= i -> 0 <= j -> i <> j ->
  readUIDFromEEPROM (saveUIDToEEPROM e i s) j = readUIDFromEEPROM e j.
Proof. intros. by apply readUID_frame, save_writes_miss_slot. Qed.

(** Saving into a slot leaves the count byte alone. *)
Lemma header_save e i s :
  0 <= i -> ee_read (saveUIDToEEPROM e i s) 0 = ee_read e 0.
Proof.
  intros Hi. apply ee_write_all_frame, save_writes_addr.
  intros k Hk. unfold slot_start, UIDLength in *. lia.
Qed.

(** Writing the count leaves every slot alone. *)
Lemma read_header_write e v j :
  0 <= j -> readUIDFromEEPROM (ee_write e 0 v) j = readUIDFromEEPROM e j.
Proof.
  intros Hj. unfold readUIDFromEEPROM. f_equal. apply list_fmap_ext.
  intros n k Hk. apply lookup_seqZ in Hk as [-> Hn].
  apply ee_read_write_ne. unfold slot_start, UIDLength. lia.
Qed.

(** ** The scan and the view *)

Lemma checkUID_loop_spec e UID i n :
  checkUID_loop e UID i n = true <-> UID ∈ readUIDFromEEPROM e <$> seqZ i (Z.of_nat n).
Proof.
  revert i. induction n as [|n IH]; intros i; cbn [checkUID_loop].
  - rewrite seqZ_nil by lia. split; [done|]. intros Hin. by apply not_elem_of_nil in Hin.
  - rewrite seqZ_cons by lia. rewrite fmap_cons, elem_of_cons.
    replace (Z.pred (Z.of_nat (S n))) with (Z.of_nat n) by lia.
    replace (Z.succ i) with (i + 1) by lia. rewrite <- IH.
    destruct (str_eq_spec (readUIDFromEEPROM e i) UID) as [->|Hne]; [tauto|].
    split; [tauto|]. intros [?|?]; [congruence|done].
Qed.

Lemma seqZ_to_nat n : seqZ 0 (Z.of_nat (Z.to_nat n)) = seqZ 0 n.
Proof. destruct (decide (0 <= n)); [by rewrite Z2Nat.id|]. rewrite !seqZ_nil; [done|lia|lia]. Qed.

Lemma length_view s : length (view s) = Z.to_nat (cardCount s).
Proof. unfold view, stored_ids. by rewrite length_fmap, length_seqZ. Qed.

Lemma stored_ids_ext e e' n :
  (forall j, 0 <= j < n -> readUIDFromEEPROM e' j = readUIDFromEEPROM e j) ->
  stored_ids e' n = stored_ids e n.
Proof.
  intros Hj. apply list_fmap_ext. intros i x Hx.
  apply lookup_seqZ in Hx as [-> ?]. apply Hj. lia.
Qed.

Lemma stored_ids_snoc e n :
  0 <= n -> stored_ids e (n + 1) = stored_ids e n ++ [readUIDFromEEPROM e n].
Proof.
  intros Hn. unfold stored_ids. rewrite seqZ_app, fmap_app by lia. f_equal.
Qed.

(** Every text the table can hold has at most 12 characters. *)
Lemma readUID_length e i : (length (readUIDFromEEPROM e i) <= 12)%nat.
Proof.
  unfold readUIDFromEEPROM. etransitivity; [apply cstr_length_le|].
  by rewrite length_fmap, length_seqZ.
Qed.

Lemma view_length_le s id : id ∈ view s -> (length id <= 12)%nat.
Proof.
  unfold view, stored_ids. intros (j & -> & _)%list_elem_of_fmap. apply readUID_length.
Qed.

(** The scan of [checkUID] is membership in the view. *)
Lemma checkUID_view s UID : checkUID s UID = true <-> UID ∈ view s.
Proof. unfold checkUID. rewrite checkUID_loop_spec, seqZ_to_nat. done. Qed.

(** The store after a successful [addUID], slot by slot. *)
Lemma addUID_added_view s id :
  0 <= cardCount s -> is_text id ->
  view (mkStore (ee_write (saveUIDToEEPROM (eeprom s) (cardCount s) id) 0 (cardCount s + 1))
                (cardCount s + 1))
  = view s ++ [take 12 id].
Proof.
  intros Hc Hid. unfold view; simpl. rewrite stored_ids_snoc by done.
  rewrite read_header_write, read_save_same by done. f_equal.
  apply stored_ids_ext. intros j Hj.
  rewrite read_header_write by lia. apply read_save_other; lia.
Qed.

Lemma abs_insert_length l id :
  (length (abs_insert l id).1 <= Z.to_nat maxCards)%nat \/ (abs_insert l id).1 = l.
Proof.
  unfold abs_insert. repeat case_bool_decide; simpl; auto.
  left. rewrite length_app. simpl. lia.
Qed.

(** The store a successful [addUID] leaves is well formed. *)
Lemma store_wf_added s id :
  store_wf s -> is_text id -> (length id <= 12)%nat ->
  cardCount s < maxCards -> id ∉ view s ->
  store_wf (mkStore (ee_write (saveUIDToEEPROM (eeprom s) (cardCount s) id) 0 (cardCount s + 1))
                    (cardCount s + 1)).
Proof.
  intros (Hc & Hh & Hnd) Hid Hlen Hlt Hnot.
  split; [simpl; unfold maxCards in *; lia|]. split.
  - simpl. rewrite ee_read_write_eq. apply to_u8_small. unfold maxCards in *. lia.
  - rewrite addUID_added_view, take_ge by (done || lia).
    apply NoDup_app. split; [done|]. split; [|apply NoDup_singleton].
    intros x Hx ->%list_elem_of_singleton. done.
Qed.

Lemma abs_insert_added l id l' :
  abs_insert l id = (l', Added) ->
  l' = l ++ [id] /\ (id ∉ l) /\ (length l < Z.to_nat maxCards)%nat.
Proof. unfold abs_insert. repeat case_bool_decide; intros; simplify_eq; auto. Qed.

Lemma store_eta (s : store E) : mkStore (eeprom s) (cardCount s) = s.
Proof. by destruct s. Qed.

(** ** Properties *)

(** C4: [checkUID] (the loop of lines 184-191 over [readUIDFromEEPROM])
    returns true exactly when the text is one of the first [cardCount]
    stored texts. *)
Theorem checkUID_spec s UID :
  checkUID s UID = true <-> exists j, 0 <= j < cardCount s /\ readUIDFromEEPROM (eeprom s) j = UID.
Proof.
  rewrite checkUID_view. unfold view, stored_ids. rewrite list_elem_of_fmap.
  setoid_rewrite elem_of_seqZ. split; intros (j & ? & ?); exists j; split; (done || lia).
Qed.

(** [addUID] against [abs_insert], with the invariant. *)
Lemma addUID_abs_wf s id :
  store_wf s -> is_text id -> (length id <= 12)%nat ->
  (view (addUID s id).1, (addUID s id).2) = abs_insert (view s) id /\ store_wf (addUID s id).1.
Proof.
  intros Hwf Hid Hlen. pose proof Hwf as (Hc & _).
  unfold addUID, abs_insert. rewrite length_view.
  destruct (Z.ltb_spec (cardCount s) maxCards) as [Hlt|Hge].
  - rewrite bool_decide_true by (unfold maxCards in *; lia).
    destruct (checkUID s id) eqn:Hchk; simpl.
    + apply checkUID_view in Hchk. by rewrite bool_decide_true.
    + assert (id ∉ view s) by (rewrite <- checkUID_view; congruence).
      rewrite bool_decide_false by done.
      rewrite addUID_added_view, take_ge by (done || lia).
      split; [done|]. by apply store_wf_added.
  - rewrite bool_decide_false by (unfold maxCards in *; lia). done.
Qed.

(** C2: on a well-formed store and a text that fits a slot, [addUID]
    implements insertion into a bounded list without duplicates: the new
    view and outcome are those of [abs_insert] (append when absent and
    not full, [AlreadyAdded] when present, [LimitExceeded] at 50
    entries), and the result is well formed. *)
Theorem addUID_refines s id :
  store_wf s -> is_text id -> (length id <= 12)%nat ->
  (view (addUID s id).1, (addUID s id).2) = abs_insert (view s) id /\ store_wf (addUID s id).1.
Proof. apply addUID_abs_wf. Qed.

(** The writes of a successful [addUID] and the store they produce. *)
Lemma addUID_as_writes s id :
  ee_write_all (eeprom s) (addUID_writes s id) = eeprom (addUID s id).1.
Proof.
  unfold addUID_writes, addUID.
  destruct (cardCount s <? maxCards), (checkUID s id); simpl; try done.
Qed.

(** A power cut inside the slot write: the count byte and the other
    slots are those of [s]. *)
Lemma load_partial_save s id k :
  store_wf s ->
  load (ee_write_all (eeprom s) (take k (save_writes (cardCount s) id))) =
  mkStore (ee_write_all (eeprom s) (take k (save_writes (cardCount s) id))) (cardCount s)
  /\ view (load (ee_write_all (eeprom s) (take k (save_writes (cardCount s) id)))) = view s.
Proof.
  intros (Hc & Hh & _).
  assert (Hhd : ee_read (ee_write_all (eeprom s) (take k (save_writes (cardCount s) id))) 0
                = cardCount s).
  { rewrite ee_write_all_frame; [done|]. apply Forall_take, save_writes_addr.
    intros k' Hk'. unfold slot_start, UIDLength in *. lia. }
  unfold load. rewrite Hhd. split; [done|]. unfold view; simpl.
  apply stored_ids_ext. intros j Hj. apply readUID_frame, Forall_take.
  apply save_writes_miss_slot; lia.
Qed.

(** A power cut inside [addUID], at the level of the loaded store. *)
Lemma addUID_crash s id k :
  store_wf s -> is_text id -> (length id <= 12)%nat ->
  store_wf (load (ee_write_all (eeprom s) (take k (addUID_writes s id)))) /\
  (view (load (ee_write_all (eeprom s) (take k (addUID_writes s id)))) = view s \/
   load (ee_write_all (eeprom s) (take k (addUID_writes s id))) = (addUID s id).1).
Proof.
  intros Hwf Hid Hlen. pose proof Hwf as (Hc & Hh & Hnd).
  unfold addUID_writes.
  destruct (Z.ltb_spec (cardCount s) maxCards) as [Hlt|Hge]; cbn [andb negb];
    [|rewrite take_nil; unfold load; simpl; rewrite Hh, store_eta; auto].
  destruct (checkUID s id) eqn:Hchk; cbn [andb negb];
    [rewrite take_nil; unfold load; simpl; rewrite Hh, store_eta; auto|].
  assert (Hlw : length (save_writes (cardCount s) id) = 12%nat)
    by (unfold save_writes; by rewrite length_fmap, length_seqZ).
  destruct (decide (k <= 12)%nat) as [Hk|Hk].
  - rewrite take_app_le by lia.
    destruct (load_partial_save s id k Hwf) as [Hl Hv].
    split; [|by left]. rewrite Hl. split; [done|]. split; [|rewrite <- Hl, Hv; done]. simpl.
    rewrite ee_write_all_frame; [done|]. apply Forall_take, save_writes_addr.
    intros k' Hk'. unfold slot_start, UIDLength in *. lia.
  - rewrite take_ge by (rewrite length_app; simpl; lia).
    rewrite ee_write_all_snoc.
    change (ee_write_all (eeprom s) (save_writes (cardCount s) id))
      with (saveUIDToEEPROM (eeprom s) (cardCount s) id).
    assert (Hnot : id ∉ view s) by (rewrite <- checkUID_view; congruence).
    pose proof (store_wf_added s id Hwf Hid Hlen Hlt Hnot) as Hwf'.
    assert (Heq : load (ee_write (saveUIDToEEPROM (eeprom s) (cardCount s) id) 0 (cardCount s + 1))
                  = (addUID s id).1).
    { unfold addUID. rewrite Hchk. destruct (Z.ltb_spec (cardCount s) maxCards); [|lia].
      simpl. unfold load. f_equal. apply Hwf'. }
    rewrite Heq. split; [|by right]. unfold addUID. rewrite Hchk.
    destruct (Z.ltb_spec (cardCount s) maxCards); [done|lia].
Qed.

(** C3: crash consistency of the write order of lines 172-173 (slot
    first, count last).  If power is lost after any number [k] of the
    [EEPROM.write] calls of [addUID], the EEPROM loads at the next boot
    ([cardCount = EEPROM.read(0)]) to a well-formed store whose table is
    the one before the insertion, or to the store [addUID] returns. *)
Theorem addUID_crash_consistent s id k :
  store_wf s -> is_text id -> (length id <= 12)%nat ->
  store_wf (load (ee_write_all (eeprom s) (take k (addUID_writes s id)))) /\
  (view (load (ee_write_all (eeprom s) (take k (addUID_writes s id)))) = view s \/
   load (ee_write_all (eeprom s) (take k (addUID_writes s id))) = (addUID s id).1).
Proof. apply addUID_crash. Qed.

(** C13: every [EEPROM.write] of [addUID] on a store with a non-negative
    count lands in the table, bytes 0 to 600 (50 slots of 12 bytes after
    the count byte, inside the 1024 bytes of the ATmega328P), and the
    count it writes fits the byte it is written to: the capacity guard
    runs before the slot index is used. *)
Theorem addUID_writes_bounds s id :
  0 <= cardCount s ->
  Forall (fun w => 0 <= fst w <= maxCards * UIDLength) (addUID_writes s id) /\
  (forall v, (0, v) ∈ addUID_writes s id -> 0 < v <= maxCards /\ to_u8 v = v).
Proof.
  intros Hc. unfold addUID_writes.
  destruct (Z.ltb_spec (cardCount s) maxCards) as [Hlt|]; cbn [andb];
    [|split; [constructor|intros v Hv; by apply not_elem_of_nil in Hv]].
  destruct (negb (checkUID s id)); [|split; [constructor|intros v Hv; by apply not_elem_of_nil in Hv]].
  split.
  - apply Forall_app. split; [|repeat constructor; simpl; unfold maxCards, UIDLength; lia].
    apply Forall_fmap, Forall_seqZ. intros k Hk. simpl.
    unfold slot_start, maxCards, UIDLength in *. lia.
  - intros v Hv. apply elem_of_app in Hv as [Hv|Hv].
    + apply list_elem_of_fmap in Hv as (k & Heq & Hk). apply elem_of_seqZ in Hk.
      injection Heq as Ha _. unfold slot_start, UIDLength in Ha. lia.
    + apply list_elem_of_singleton in Hv. injection Hv as ->.
      unfold maxCards in *. split; [lia|]. apply to_u8_small. lia.
Qed.

Lemma addUID_added_count s id :
  (addUID s id).2 = Added -> cardCount (addUID s id).1 = cardCount s + 1.
Proof.
  unfold addUID. destruct (cardCount s <? maxCards), (checkUID s id); simpl; congruence.
Qed.

(** C12: inserting a text a second time changes nothing, EEPROM and count
    included.  The capacity guard of line 170 runs before the duplicate
    guard of line 171, so the refusal is [AlreadyAdded] unless the first
    insertion filled the 50th slot, where it is [LimitExceeded]. *)
Theorem addUID_twice s id :
  store_wf s -> is_text id -> (length id <= 12)%nat ->
  (addUID s id).2 = Added ->
  addUID (addUID s id).1 id =
    ((addUID s id).1, if cardCount s + 1 <? maxCards then AlreadyAdded else LimitExceeded).
Proof.
  intros Hwf Hid Hlen Hadd.
  destruct (addUID_abs_wf s id Hwf Hid Hlen) as [Href _].
  rewrite Hadd in Href. symmetry in Href. apply abs_insert_added in Href as (Hv & _ & _).
  assert (Hin : id ∈ view (addUID s id).1) by (rewrite Hv; set_solver).
  apply checkUID_view in Hin. unfold addUID at 1. rewrite Hin, addUID_added_count by done.
  by destruct (cardCount s + 1 <? maxCards).
Qed.

(** A text longer than a slot is never found: every stored text has at
    most 12 characters. *)
Lemma checkUID_long_false s UID : (12 < length UID)%nat -> checkUID s UID = false.
Proof.
  intros Hl. destruct (checkUID s UID) eqn:Hc; [|done].
  apply checkUID_view, view_length_le in Hc. lia.
Qed.

Lemma addUID_fresh s id :
  cardCount s < maxCards -> checkUID s id = false ->
  addUID s id = (mkStore (ee_write (saveUIDToEEPROM (eeprom s) (cardCount s) id) 0
                                   (cardCount s + 1)) (cardCount s + 1), Added).
Proof.
  intros Hlt Hc. unfold addUID. rewrite Hc. destruct (Z.ltb_spec (cardCount s) maxCards); [done|lia].
Qed.

Lemma addUID_view_added s id :
  0 <= cardCount s -> is_text id -> (addUID s id).2 = Added ->
  view (addUID s id).1 = view s ++ [take 12 id].
Proof.
  intros Hc Hid. unfold addUID.
  destruct (cardCount s <? maxCards), (checkUID s id); simpl; try congruence.
  intros _. by apply addUID_added_view.
Qed.

(** C16: a text longer than the 12-byte slot (a 7-byte UID renders to up
    to 14 characters) is stored cut to 12 characters, so [checkUID]
    never finds it: each presentation in enrollment mode stores it
    again, and the table ends up with the same text twice. *)
Theorem long_uid_stored_twice s id :
  store_wf s -> is_text id -> (12 < length id)%nat -> cardCount s + 2 <= maxCards ->
  (addUID s id).2 = Added /\ (addUID (addUID s id).1 id).2 = Added /\
  view (addUID (addUID s id).1 id).1 = view s ++ [take 12 id; take 12 id] /\
  ~ NoDup (view (addUID (addUID s id).1 id).1).
Proof.
  intros (Hc & _) Hid Hl Hroom.
  assert (H1 : (addUID s id).2 = Added).
  { rewrite addUID_fresh; [done|unfold maxCards in *; lia|by apply checkUID_long_false]. }
  pose proof (addUID_added_count s id H1) as Hc1.
  assert (H2 : (addUID (addUID s id).1 id).2 = Added).
  { rewrite addUID_fresh; [done|rewrite Hc1; unfold maxCards in *; lia|].
    by apply checkUID_long_false. }
  rewrite (addUID_view_added _ id), (addUID_view_added s id) by (rewrite ?Hc1; lia || done).
  rewrite <- app_assoc. do 3 (split; [done|]).
  intros Hnd. apply NoDup_app in Hnd as (_ & _ & Hnd).
  apply NoDup_cons in Hnd as [Hn _]. by apply Hn, list_elem_of_singleton.
Qed.

(** [resetEEPROM] leaves an empty, well-formed table. *)
Lemma resetEEPROM_load s :
  cardCount (load (resetEEPROM s)) = 0 /\ view (load (resetEEPROM s)) = [] /\
  store_wf (load (resetEEPROM s)).
Proof.
  unfold load, resetEEPROM, view, store_wf. simpl.
  rewrite ee_read_write_eq, to_u8_small by lia. unfold stored_ids.
  rewrite seqZ_nil by lia. simpl. split; [done|]. split; [done|].
  split; [unfold maxCards; lia|]. split; [done|constructor].
Qed.

(** C11: the layout round trip of [saveUIDToEEPROM] and
    [readUIDFromEEPROM]: slot [i] reads back the saved text cut to 12
    characters (padded with NULs when shorter, which [String(UID)]
    drops), and every other slot reads as before. *)
Theorem slot_roundtrip e i j s :
  0 <= i -> 0 <= j -> is_text s ->
  readUIDFromEEPROM (saveUIDToEEPROM e i s) j =
    if decide (i = j) then take 12 s else readUIDFromEEPROM e j.
Proof.
  intros. case_decide; subst; [by apply read_save_same|by apply read_save_other].
Qed.
End Store.

#[export] Instance store_wf_dec `{EepromLaws E} (s : store E) : Decision (store_wf s).
Proof. unfold store_wf. apply _. Defined.

(** ** Witnesses on the finite-map EEPROM *)

(** A table whose count byte was reset to 0. *)
Definition reset_table : store (gmap Z Z) := load (<[0 := 0]> ∅).

Lemma checkUID_spec_witness :
  exists j, 0 <= j < cardCount (addUID reset_table (str "A1B2C3D4E5F6")).1 /\
  readUIDFromEEPROM (eeprom (addUID reset_table (str "A1B2C3D4E5F6")).1) j = str "A1B2C3D4E5F6".
Proof. apply checkUID_spec. vm_compute. reflexivity. Defined.

Definition card_text : list Z := str "A1B2C3D4E5F6".

Lemma addUID_refines_witness :
  store_wf reset_table /\ is_text card_text /\ (length card_text <= 12)%nat /\
  (view (addUID reset_table card_text).1, (addUID reset_table card_text).2)
    = abs_insert (view reset_table) card_text.
Proof.
  assert (H1 : store_wf reset_table) by (apply (bool_decide_eq_true_1 _); vm_compute; reflexivity).
  assert (H2 : is_text card_text) by (apply (bool_decide_eq_true_1 _); vm_compute; reflexivity).
  assert (H3 : (length card_text <= 12)%nat) by (vm_compute; lia).
  do 3 (split; [assumption|]).
  exact (proj1 (addUID_refines reset_table card_text H1 H2 H3)).
Defined.

Lemma addUID_crash_consistent_witness :
  store_wf reset_table /\ is_text card_text /\ (length card_text <= 12)%nat /\
  store_wf (load (ee_write_all (eeprom reset_table) (take 5 (addUID_writes reset_table card_text)))).
Proof.
  assert (H1 : store_wf reset_table) by (apply (bool_decide_eq_true_1 _); vm_compute; reflexivity).
  assert (H2 : is_text card_text) by (apply (bool_decide_eq_true_1 _); vm_compute; reflexivity).
  assert (H3 : (length card_text <= 12)%nat) by (vm_compute; lia).
  do 3 (split; [assumption|]).
  exact (proj1 (addUID_crash_consistent reset_table card_text 5 H1 H2 H3)).
Defined.

Lemma addUID_writes_bounds_witness :
  0 <= cardCount reset_table /\
  Forall (fun w => 0 <= fst w <= maxCards * UIDLength) (addUID_writes reset_table card_text).
Proof.
  assert (H : 0 <= cardCount reset_table) by (vm_compute; discriminate).
  split; [exact H|]. exact (proj1 (addUID_writes_bounds reset_table card_text H)).
Defined.

Lemma addUID_twice_witness :
  store_wf reset_table /\ is_text card_text /\ (length card_text <= 12)%nat /\
  (addUID reset_table card_text).2 = Added /\
  (addUID (addUID reset_table card_text).1 card_text).2 = AlreadyAdded.
Proof.
  assert (H1 : store_wf reset_table) by (apply (bool_decide_eq_true_1 _); vm_compute; reflexivity).
  assert (H2 : is_text card_text) by (apply (bool_decide_eq_true_1 _); vm_compute; reflexivity).
  assert (H3 : (length card_text <= 12)%nat) by (vm_compute; lia).
  assert (H4 : (addUID reset_table card_text).2 = Added) by (vm_compute; reflexivity).
  do 4 (split; [assumption|]).
  rewrite (addUID_twice reset_table card_text H1 H2 H3 H4). vm_compute. reflexivity.
Defined.

(** The rendering of a 7-byte UID: 14 characters. *)
Definition long_text : list Z := str "11223344556677".

Lemma long_uid_stored_twice_witness :
  store_wf reset_table /\ is_text long_text /\ (12 < length long_text)%nat /\
  cardCount reset_table + 2 <= maxCards /\
  ~ NoDup (view (addUID (addUID reset_table long_text).1 long_text).1).
Proof.
  assert (H1 : store_wf reset_table) by (apply (bool_decide_eq_true_1 _); vm_compute; reflexivity).
  assert (H2 : is_text long_text) by (apply (bool_decide_eq_true_1 _); vm_compute; reflexivity).
  assert (H3 : (12 < length long_text)%nat) by (vm_compute; lia).
  assert (H4 : cardCount reset_table + 2 <= maxCards) by (vm_compute; discriminate).
  do 4 (split; [assumption|]).
  exact (proj2 (proj2 (proj2 (long_uid_stored_twice reset_table long_text H1 H2 H3 H4)))).
Defined.

Lemma slot_roundtrip_witness :
  0 <= 3 /\ 0 <= 3 /\ is_text card_text /\
  readUIDFromEEPROM (saveUIDToEEPROM (∅ : gmap Z Z) 3 card_text) 3 = card_text.
Proof.
  assert (H : is_text card_text) by (apply (bool_decide_eq_true_1 _); vm_compute; reflexivity).
  split; [lia|]. split; [lia|]. split; [exact H|].
  rewrite (slot_roundtrip (∅ : gmap Z Z) 3 3 card_text ltac:(lia) ltac:(lia) H).
  vm_compute. reflexivity.
Defined.
