(* ===== verification/Provision.v ===== *)
(** * Provision: the factory cards (main.cpp lines 21-55, 212-220)

    [setup] calls [addPredefinedUIDs] on every boot: for each of the 31
    texts of [predefinedUIDs], in order, [addUID] when [checkUID] does not
    find it.  [seed] is that loop over any list.  The theorems show that
    seeding is the abstract insertion of the list (refinement), that it is
    idempotent, that from a table whose count byte is 0 (after the reset
    card) it leaves exactly the factory list, that from a count byte
    above 50 (an erased EEPROM reads 0xFF) it adds nothing, and, with
    [seed_writes], the EEPROM writes of the loop in order, that a power
    cut during the seeding leaves a well-formed table. *)

From S2P Require Import Prelude Eeprom Store.
#[local] Open Scope Z_scope.
#[local] Open Scope hodor_scope.

#[local] Open Scope string_scope.
(** [String predefinedUIDs[] = { ... };] *)
Definition predefinedUIDs : list (list Z) :=
  map str ["4A9F4D99"; "3AE0D799"; "5A920999"; "638B272D"; "E3825718"; "43355D2D";
           "5A688A99"; "5A4F2199"; "335C3F2D"; "F35A172D"; "3AE2B199"; "73368713";
           "4A1D1F99"; "DA8E7A99"; "139D452D"; "4A230B99"; "DA1AF899"; "3AF29E99";
           "5A368E99"; "4AD6B399"; "DA113999"; "DA82B199"; "DAEA6D99"; "D3E3252D";
           "4A27F599"; "DA092899"; "83D8332D"; "5A1C0B99"; "5A90E899"; "DA995199";
           "F3CC2A2D"].
#[local] Close Scope string_scope.

(** [sizeof(predefinedUIDs) / sizeof(predefinedUIDs[0])] *)
Definition numPredefinedUIDs : nat := length predefinedUIDs.

(** A text that fits a slot. *)
Definition fits (id : list Z) : Prop := is_text id /\ (length id <= 12)%nat.

#[export] Instance fits_dec id : Decision (fits id).
Proof. unfold fits. apply _. Defined.

(** The abstract seeding: [abs_insert] of each text in turn. *)
Definition abs_seed (l : list (list Z)) (ids : list (list Z)) : list (list Z) :=
  fold_left (fun acc id => (abs_insert acc id).1) ids l.

Section Provision.
Context `{EepromLaws E}.

(** The loop of [addPredefinedUIDs] over a list of texts. *)
Fixpoint seed (s : store E) (l : list (list Z)) : store E :=
  match l with
  | [] => s
  | id :: l' => seed (if negb (checkUID s id) then (addUID s id).1 else s) l'
  end.

Definition addPredefinedUIDs (s : store E) : store E := seed s predefinedUIDs.

(** The [EEPROM.write] calls of the loop, in order: those of each
    [addUID] it makes. *)
Fixpoint seed_writes (s : store E) (l : list (list Z)) : list (Z * Z) :=
  match l with
  | [] => []
  | id :: l' =>
      if negb (checkUID s id) then addUID_writes s id ++ seed_writes (addUID s id).1 l'
      else seed_writes s l'
  end.

(** ** Lemmas *)

(** The guard of line 215 is the one [addUID] makes itself. *)
Lemma seed_step s id :
  (if negb (checkUID s id) then (addUID s id).1 else s) = (addUID s id).1.
Proof.
  unfold addUID. destruct (checkUID s id); simpl; [|done].
  by destruct (cardCount s <? maxCards).
Qed.

Lemma addUID_count_mono s id : cardCount s <= cardCount (addUID s id).1.
Proof.
  unfold addUID. destruct (cardCount s <? maxCards), (checkUID s id); simpl; lia.
Qed.

Lemma addUID_refused s id : (addUID s id).2 <> Added -> (addUID s id).1 = s.
Proof.
  unfold addUID. destruct (cardCount s <? maxCards), (checkUID s id); simpl; congruence.
Qed.

(** What [checkUID] finds stays found after an [addUID]. *)
Lemma addUID_keeps s id x :
  0 <= cardCount s -> is_text id ->
  checkUID s x = true -> checkUID (addUID s id).1 x = true.
Proof.
  intros Hc Hid. rewrite !checkUID_view. intros Hx.
  destruct (decide ((addUID s id).2 = Added)) as [Ha|Ha].
  - rewrite addUID_view_added by done. apply elem_of_app. by left.
  - by rewrite addUID_refused.
Qed.

(** After [addUID] of a fitting text, the text is found or the table is full. *)
Lemma addUID_found_or_full s id :
  0 <= cardCount s -> fits id ->
  checkUID (addUID s id).1 id = true \/ maxCards <= cardCount (addUID s id).1.
Proof.
  intros Hc [Hid Hlen].
  destruct (checkUID s id) eqn:Hchk; [left; by apply addUID_keeps|].
  destruct (Z.ltb_spec (cardCount s) maxCards) as [Hlt|Hge].
  - left. rewrite checkUID_view, addUID_view_added by (done || by rewrite addUID_fresh).
    rewrite take_ge by done. set_solver.
  - right. unfold addUID. destruct (Z.ltb_spec (cardCount s) maxCards); [lia|done].
Qed.

(** A table that is full or already holds every text is left alone. *)
Lemma seed_noop s l :
  Forall (fun id => checkUID s id = true \/ maxCards <= cardCount s) l -> seed s l = s.
Proof.
  induction 1 as [|id l Hid _ IH]; [done|]. simpl.
  destruct Hid as [Hid|Hfull].
  - by rewrite Hid.
  - destruct (negb (checkUID s id)); [|done].
    unfold addUID. destruct (Z.ltb_spec (cardCount s) maxCards); [lia|done].
Qed.

Lemma seed_count_mono s l : cardCount s <= cardCount (seed s l).
Proof.
  revert s. induction l as [|id l IH]; intros s; simpl; [lia|].
  rewrite seed_step. etransitivity; [apply addUID_count_mono|apply IH].
Qed.

Lemma seed_keeps s l x :
  0 <= cardCount s -> Forall fits l ->
  checkUID s x = true -> checkUID (seed s l) x = true.
Proof.
  intros Hc Hl. revert s Hc. induction Hl as [|id l [Hid _] _ IH]; intros s Hc Hx; [done|].
  simpl. rewrite seed_step. apply IH; [pose proof (addUID_count_mono s id); lia|].
  by apply addUID_keeps.
Qed.

(** After seeding, each text of the list is found or the table is full. *)
Lemma seed_found_or_full s l :
  0 <= cardCount s -> Forall fits l ->
  Forall (fun id => checkUID (seed s l) id = true \/ maxCards <= cardCount (seed s l)) l.
Proof.
  intros Hc Hl. revert s Hc. induction Hl as [|id l Hfit Hl IH]; intros s Hc; constructor.
  - simpl. rewrite seed_step.
    destruct (addUID_found_or_full s id Hc Hfit) as [Hf|Hf].
    + left. apply seed_keeps; [pose proof (addUID_count_mono s id); lia|done|done].
    + right. pose proof (seed_count_mono (addUID s id).1 l). lia.
  - simpl. rewrite seed_step. apply IH. pose proof (addUID_count_mono s id). lia.
Qed.

(** Seeding a well-formed table is [abs_seed] on its view, and keeps it
    well formed. *)
Lemma seed_refines s l :
  store_wf s -> Forall fits l -> view (seed s l) = abs_seed (view s) l /\ store_wf (seed s l).
Proof.
  intros Hwf Hl. revert s Hwf. induction Hl as [|id l [Hid Hlen] _ IH]; intros s Hwf; [done|].
  simpl. rewrite seed_step.
  destruct (addUID_abs_wf s id Hwf Hid Hlen) as [Href Hwf'].
  destruct (IH _ Hwf') as [Hv Hw]. split; [|done].
  rewrite Hv. unfold abs_seed. simpl. f_equal. by rewrite <- Href.
Qed.

Lemma predefined_fit : Forall fits predefinedUIDs.
Proof. apply (bool_decide_eq_true_1 _). vm_compute. reflexivity. Qed.


(** From an EEPROM whose count byte is 0 (what [resetEEPROM] leaves),
    whatever the stale slots hold, [addPredefinedUIDs] leaves a
    well-formed table holding exactly the 31 factory texts, in the order
    of the array. *)
(** An EEPROM whose count byte is 0 loads to an empty well-formed table. *)
Lemma load_zero e : ee_read e 0 = 0 -> store_wf (load e) /\ view (load e) = [].
Proof.
  intros He. unfold store_wf, load, view, stored_ids; cbn [eeprom cardCount].
  rewrite He, seqZ_nil by lia. split; [|done].
  split; [unfold maxCards; lia|]. split; [done|constructor].
Qed.

Lemma predefined_nodup : NoDup predefinedUIDs.
Proof. apply (bool_decide_eq_true_1 _). vm_compute. reflexivity. Qed.

Lemma seed_from_zero e :
  ee_read e 0 = 0 ->
  view (addPredefinedUIDs (load e)) = predefinedUIDs /\
  cardCount (addPredefinedUIDs (load e)) = 31 /\ store_wf (addPredefinedUIDs (load e)).
Proof.
  intros He. destruct (load_zero e He) as [Hwf Hv0].
  destruct (seed_refines _ _ Hwf predefined_fit) as [Hv Hw].
  assert (Hv' : view (addPredefinedUIDs (load e)) = predefinedUIDs).
  { unfold addPredefinedUIDs. rewrite Hv, Hv0. vm_compute. reflexivity. }
  split; [done|]. split; [|done].
  pose proof (length_view (addPredefinedUIDs (load e))) as Hl. rewrite Hv' in Hl.
  destruct Hw as (Hc & _). change (length predefinedUIDs) with 31%nat in Hl.
  set (c := cardCount (addPredefinedUIDs (load e))) in *. clearbody c. lia.
Qed.

Lemma seed_writes_step s id l :
  seed_writes s (id :: l) = addUID_writes s id ++ seed_writes (addUID s id).1 l.
Proof.
  cbn [seed_writes]. pose proof (seed_step s id) as Hs. unfold addUID_writes.
  destruct (checkUID s id); cbn [negb andb] in *; [|done].
  by rewrite andb_false_r, <- Hs.
Qed.

Lemma load_wf_eeprom s : store_wf s -> load (eeprom s) = s.
Proof. intros (_ & Hh & _). unfold load. rewrite Hh. apply store_eta. Qed.

(** A power cut after any number of the seeding writes leaves a
    well-formed table: the abstract seeding of a prefix of the list. *)
Lemma seed_crash s l k :
  store_wf s -> Forall fits l ->
  store_wf (load (ee_write_all (eeprom s) (take k (seed_writes s l)))) /\
  exists j, view (load (ee_write_all (eeprom s) (take k (seed_writes s l))))
            = abs_seed (view s) (take j l).
Proof.
  revert s k. induction l as [|id l IH]; intros s k Hwf Hl.
  { cbn [seed_writes]. rewrite take_nil. cbn [ee_write_all fold_left]. rewrite load_wf_eeprom by done.
    split; [done|]. by exists 0%nat. }
  apply Forall_cons in Hl as [[Hid Hlen] Hl].
  destruct (addUID_abs_wf s id Hwf Hid Hlen) as [Href Hwf1].
  assert (Hv1 : view (addUID s id).1 = abs_seed (view s) [id]).
  { unfold abs_seed. cbn [fold_left]. by rewrite <- Href. }
  rewrite seed_writes_step.
  destruct (decide (k <= length (addUID_writes s id))%nat) as [Hk|Hk].
  - rewrite take_app_le by done.
    destruct (addUID_crash s id k Hwf Hid Hlen) as [Hw [Hv|Hv]]; split; [done| |done|].
    + exists 0%nat. by rewrite Hv.
    + exists 1%nat. by rewrite Hv.
  - rewrite take_app_ge, ee_write_all_app, addUID_as_writes by lia.
    destruct (IH (addUID s id).1 (k - length (addUID_writes s id))%nat Hwf1 Hl) as [Hw [j Hj]].
    split; [done|]. exists (S j). rewrite Hj, Hv1. done.
Qed.

(** The abstract insertion of fresh texts with room for all of them
    appends them. *)
Lemma abs_seed_fresh l ids :
  NoDup (l ++ ids) -> (length l + length ids <= Z.to_nat maxCards)%nat -> abs_seed l ids = l ++ ids.
Proof.
  revert l. induction ids as [|id ids IH]; intros l Hnd Hlen; [by rewrite app_nil_r|].
  assert (Hi : abs_insert l id = (l ++ [id], Added)).
  { unfold abs_insert. rewrite bool_decide_eq_true_2 by (cbn [length] in Hlen; lia).
    rewrite bool_decide_eq_false_2; [done|].
    apply NoDup_app in Hnd as (_ & Hd & _). intros Hin. apply (Hd id Hin). by left. }
  unfold abs_seed. cbn [fold_left]. rewrite Hi. cbn [fst].
  change (abs_seed (l ++ [id]) ids = l ++ id :: ids). rewrite IH.
  - by rewrite <- app_assoc.
  - by rewrite <- app_assoc.
  - rewrite length_app. cbn [length] in Hlen |- *. lia.
Qed.

(** [seed] is a sequence of [addUID]s: the guard of line 215 changes
    nothing. *)
Lemma seed_fold s l : seed s l = fold_left (fun s id => (addUID s id).1) l s.
Proof. revert s. induction l as [|id l IH]; intros s; [done|]. cbn. by rewrite seed_step. Qed.

(** ** Properties *)

(** C10: [addPredefinedUIDs] is idempotent: a second run, as on the next
    boot, finds every factory text or a full table and writes nothing. *)
Theorem addPredefinedUIDs_idempotent s :
  0 <= cardCount s -> addPredefinedUIDs (addPredefinedUIDs s) = addPredefinedUIDs s.
Proof.
  intros Hc. unfold addPredefinedUIDs.
  apply (seed_noop (seed s predefinedUIDs) predefinedUIDs).
  apply (seed_found_or_full s predefinedUIDs Hc predefined_fit).
Qed.


(** C17: [setup] loads the count byte without the range check the
    design asks for: when it is above 50, as on an erased EEPROM where
    it reads 0xFF, [addPredefinedUIDs] adds nothing and the factory
    cards are never provisioned. *)
Theorem addPredefinedUIDs_corrupt_header e :
  maxCards < ee_read e 0 ->
  cardCount (load e) = ee_read e 0 /\ addPredefinedUIDs (load e) = load e.
Proof.
  intros Hbig. split; [done|]. unfold addPredefinedUIDs.
  apply (seed_noop (load e) predefinedUIDs), Forall_forall.
  intros id _. right. cbn [load cardCount]. lia.
Qed.

(** C26: crash consistency of the seeding in [setup] (lines 94,
    213-220): if power is lost after any number [k] of the EEPROM writes
    that [addPredefinedUIDs] makes on a well-formed table, the next boot
    loads a well-formed table that is the first [j] factory texts seeded
    into the old table, for some [j]. *)
Theorem addPredefinedUIDs_crash_consistent e k :
  store_wf (load e) ->
  store_wf (load (ee_write_all e (take k (seed_writes (load e) predefinedUIDs)))) /\
  exists j, view (load (ee_write_all e (take k (seed_writes (load e) predefinedUIDs))))
            = abs_seed (view (load e)) (take j predefinedUIDs).
Proof. intros Hwf. exact (seed_crash (load e) predefinedUIDs k Hwf predefined_fit). Qed.

(** C33: the first testable property of the design: from an empty
    table (count byte 0), any sequence of distinct fitting texts that
    respects the capacity, inserted one by one with [addUID], leaves a
    well-formed table that counts them and whose [checkUID] finds
    exactly them. *)
Theorem addUID_sequence_contains e ids :
  ee_read e 0 = 0 -> Forall fits ids -> NoDup ids -> (length ids <= Z.to_nat maxCards)%nat ->
  store_wf (fold_left (fun s id => (addUID s id).1) ids (load e)) /\
  cardCount (fold_left (fun s id => (addUID s id).1) ids (load e)) = Z.of_nat (length ids) /\
  forall x, checkUID (fold_left (fun s id => (addUID s id).1) ids (load e)) x = true <-> x ∈ ids.
Proof.
  intros He Hfit Hnd Hlen. rewrite <- seed_fold.
  destruct (load_zero e He) as [Hwf Hv0].
  destruct (seed_refines (load e) ids Hwf Hfit) as [Hv Hw].
  rewrite Hv0, abs_seed_fresh in Hv by done. cbn [app] in Hv.
  split; [done|]. split.
  - pose proof (length_view (seed (load e) ids)) as Hl. rewrite Hv in Hl.
    destruct Hw as (Hc & _). lia.
  - intros x. by rewrite checkUID_view, Hv.
Qed.
End Provision.

Lemma addPredefinedUIDs_corrupt_header_witness :
  maxCards < ee_read (∅ : gmap Z Z) 0 /\
  (cardCount (load (∅ : gmap Z Z)) = ee_read (∅ : gmap Z Z) 0 /\
   addPredefinedUIDs (load (∅ : gmap Z Z)) = load ∅).
Proof.
  assert (H : maxCards < ee_read (∅ : gmap Z Z) 0) by (vm_compute; reflexivity).
  split; [exact H|]. exact (addPredefinedUIDs_corrupt_header ∅ H).
Defined.

Lemma addPredefinedUIDs_idempotent_witness :
  0 <= cardCount reset_table /\
  addPredefinedUIDs (addPredefinedUIDs reset_table) = addPredefinedUIDs reset_table.
Proof.
  assert (H : 0 <= cardCount reset_table) by (vm_compute; discriminate).
  split; [exact H|]. exact (addPredefinedUIDs_idempotent reset_table H).
Defined.

Lemma addPredefinedUIDs_crash_consistent_witness :
  store_wf (load (<[0 := 0]> ∅ : gmap Z Z)) /\
  store_wf (load (ee_write_all (<[0 := 0]> ∅ : gmap Z Z)
                   (take 40 (seed_writes (load (<[0 := 0]> ∅)) predefinedUIDs)))).
Proof.
  assert (H : store_wf (load (<[0 := 0]> ∅ : gmap Z Z)))
    by (apply (bool_decide_eq_true_1 _); vm_compute; reflexivity).
  split; [exact H|]. exact (proj1 (addPredefinedUIDs_crash_consistent (<[0 := 0]> ∅) 40 H)).
Defined.

Lemma addUID_sequence_contains_witness :
  ee_read (<[0 := 0]> ∅ : gmap Z Z) 0 = 0 /\ Forall fits [card_text; str "0A0B"] /\
  NoDup [card_text; str "0A0B"] /\ (length [card_text; str "0A0B"] <= Z.to_nat maxCards)%nat /\
  checkUID (fold_left (fun s id => (addUID s id).1) [card_text; str "0A0B"]
              (load (<[0 := 0]> ∅ : gmap Z Z))) card_text = true.
Proof.
  assert (H1 : ee_read (<[0 := 0]> ∅ : gmap Z Z) 0 = 0) by reflexivity.
  assert (H2 : Forall fits [card_text; str "0A0B"])
    by (apply (bool_decide_eq_true_1 _); vm_compute; reflexivity).
  assert (H3 : NoDup [card_text; str "0A0B"])
    by (apply (bool_decide_eq_true_1 _); vm_compute; reflexivity).
  assert (H4 : (length [card_text; str "0A0B"] <= Z.to_nat maxCards)%nat) by (vm_compute; lia).
  do 4 (split; [assumption|]).
  apply (proj2 (proj2 (addUID_sequence_contains _ _ H1 H2 H3 H4)) card_text). by left.
Defined.
