(* ===== verification/Serial.v ===== *)
(** * Serial: the diagnostics written to [Serial] (main.cpp lines 75-91,
      119-124, 141, 150-155, 163, 174-179, 217)

    The sketch reports every decision on the serial line at 9600 baud.
    The line is an output stream of bytes: [Serial.print(s)] appends the
    bytes of [s], [Serial.println(s)] appends them and CR LF.  The
    messages are the sketch's literals, byte for byte (the source is
    UTF-8, so a Turkish letter is two bytes), and [print_long] is the
    decimal rendering of [Print::print(long)] of the Arduino core, which
    [setup] uses for the count it loads.  This file holds the messages,
    the rendering with its round trip, the message of each [addUID]
    outcome and the seeding loop of [addPredefinedUIDs] with the lines it
    prints; [Controller] threads the stream through [setup] and [loop]. *)

From S2P Require Import Prelude Eeprom Store Provision.
#[local] Open Scope Z_scope.
#[local] Open Scope hodor_scope.

(** ** The stream *)

(** What [Serial.println(s)] appends: [s], then CR LF. *)
Definition println (s : list Z) : list Z := s ++ [13; 10].

(** ** Messages *)

#[local] Open Scope string_scope.
(** line 75 *)
Definition msg_no_reader : list Z := str "PN53x modülü bulunamadı!".
(** line 82 *)
Definition msg_ready : list Z := str "Kart okuyucuya hazır. Kartınızı yaklaştırın...".
(** line 90 *)
Definition msg_count : list Z := str "EEPROM'dan kart sayısı yüklendi: ".
(** line 119 *)
Definition msg_read : list Z := str "Okunan Kart UID: ".
(** line 124 *)
Definition msg_master : list Z := str "Anahtar kart okundu. Kart ekleme moduna geçildi.".
(** line 141 *)
Definition msg_new_card : list Z := str "Yeni kart eklendi: ".
(** line 150 *)
Definition msg_granted : list Z := str "Yetkili erişim.".
(** line 155 *)
Definition msg_denied : list Z := str "Erişim reddedildi.".
(** line 163 *)
Definition msg_reset : list Z := str "EEPROM sıfırlandı. Kart sayısı 0 yapıldı.".
(** line 174 *)
Definition msg_added : list Z := str "Kart başarıyla eklendi.".
(** line 176 *)
Definition msg_already : list Z := str "Bu kart zaten eklenmiş.".
(** line 179 *)
Definition msg_limit : list Z := str "Kart ekleme limiti aşıldı.".
(** line 217 *)
Definition msg_predefined : list Z := str "Önceden tanımlı kart eklendi: ".
#[local] Close Scope string_scope.

(** The line [addUID] prints for each of its outcomes (lines 174, 176,
    179). *)
Definition addUID_msg (o : add_outcome) : list Z :=
  match o with
  | Added => msg_added
  | AlreadyAdded => msg_already
  | LimitExceeded => msg_limit
  end.

(** ** Decimal numbers *)

(** [Print::printNumber(n, 10)] of the Arduino core: the digits are
    produced from the last, [n % 10] then [n /= 10], until [n] is 0.  The
    buffer has room for the 32 binary digits of an [unsigned long]; the
    fuel is that size, and 10 digits are enough for any 32-bit value. *)
Fixpoint printNumber_digits (fuel : nat) (n : Z) (acc : list Z) : list Z :=
  match fuel with
  | O => acc
  | S f =>
      let acc := (48 + n mod 10) :: acc in
      if n / 10 =? 0 then acc else printNumber_digits f (n / 10) acc
  end.

Definition printNumber (n : Z) : list Z := printNumber_digits 32 n [].

(** [Print::print(long n, DEC)]: a minus sign, then the digits of [-n]. *)
Definition print_long (n : Z) : list Z :=
  if n <? 0 then 45 :: printNumber (- n) else printNumber n.

(** The value of a string of decimal digits, the reading a terminal on
    the line makes of it. *)
Definition dec_value (s : list Z) : Z := fold_left (fun v c => v * 10 + (c - 48)) s 0.

Definition is_digit (c : Z) : Prop := 48 <= c <= 57.

(** ** The seeding loop with its messages *)

Section Seeding.
Context `{EepromLaws E}.

(** [addPredefinedUIDs] (lines 213-220) with what it prints: for a text
    that [checkUID] does not find, [addUID] prints its outcome, and then
    line 217 announces the text as added, whatever that outcome was. *)
Fixpoint seed_io (s : store E) (l : list (list Z)) : store E * list Z :=
  match l with
  | [] => (s, [])
  | id :: l' =>
      if negb (checkUID s id) then
        let r := addUID s id in
        let out := println (addUID_msg r.2) ++ println (msg_predefined ++ id) in
        let p := seed_io r.1 l' in
        (p.1, out ++ p.2)
      else seed_io s l'
  end.

Definition addPredefinedUIDs_io (s : store E) : store E * list Z := seed_io s predefinedUIDs.

(** The two lines printed for a factory text the table did not hold. *)
Definition seed_lines (o : add_outcome) (id : list Z) : list Z :=
  println (addUID_msg o) ++ println (msg_predefined ++ id).

(** ** Lemmas *)

(** The store the logging loop leaves is the one of [seed]. *)
Lemma seed_io_store s l : (seed_io s l).1 = seed s l.
Proof.
  revert s. induction l as [|id l IH]; intros s; [done|]. simpl.
  destruct (checkUID s id); simpl; apply IH.
Qed.

Lemma addPredefinedUIDs_io_store s : (addPredefinedUIDs_io s).1 = addPredefinedUIDs s.
Proof. apply seed_io_store. Qed.

Lemma seed_io_cons s id l :
  seed_io s (id :: l) =
    if checkUID s id then seed_io s l
    else ((seed_io (addUID s id).1 l).1,
          seed_lines (addUID s id).2 id ++ (seed_io (addUID s id).1 l).2).
Proof.
  cbn [seed_io]. destruct (checkUID s id); cbn [negb]; [done|]. unfold seed_lines. cbn [fst snd]. done.
Qed.

(** On a full table every text is refused: nothing is written, and each
    text the table does not hold gets the refusal and the announcement. *)
Lemma seed_io_full_gen s l :
  maxCards <= cardCount s ->
  seed_io s l = (s, concat ((fun id => seed_lines LimitExceeded id)
                              <$> filter (fun id => checkUID s id = false) l)).
Proof.
  intros Hfull. induction l as [|id l IH]; [done|]. rewrite seed_io_cons.
  assert (Ha : addUID s id = (s, LimitExceeded)).
  { unfold addUID. by destruct (Z.ltb_spec (cardCount s) maxCards); [lia|]. }
  rewrite Ha. cbn [fst snd]. rewrite IH, filter_cons.
  destruct (checkUID s id); [by rewrite decide_False|rewrite decide_True; [reflexivity|done]].
Qed.

(** From a well-formed table with room for all of them, seeding texts
    it does not hold adds each and prints, for each in order, the success
    of [addUID] and the announcement. *)
Lemma seed_io_all_added s l :
  store_wf s -> Forall fits l -> NoDup (view s ++ l) ->
  (length (view s) + length l <= Z.to_nat maxCards)%nat ->
  (seed_io s l).2 = concat (seed_lines Added <$> l).
Proof.
  revert s. induction l as [|id l IH]; intros s Hwf Hl Hnd Hlen; [done|].
  apply Forall_cons in Hl as [[Hid Hfit] Hl].
  assert (Hnin : id ∉ view s).
  { apply NoDup_app in Hnd as (_ & Hd & _). intros Hin. apply (Hd id Hin). by left. }
  assert (Hchk : checkUID s id = false) by (apply not_true_iff_false; by rewrite checkUID_view).
  destruct (addUID_abs_wf s id Hwf Hid Hfit) as [Href Hwf'].
  assert (Hins : abs_insert (view s) id = (view s ++ [id], Added)).
  { unfold abs_insert. rewrite bool_decide_eq_true_2 by (cbn [length] in Hlen; lia).
    by rewrite bool_decide_eq_false_2. }
  rewrite Hins in Href. injection Href as Hv Ho.
  rewrite seed_io_cons, Hchk. cbn [snd]. rewrite Ho, IH; [done|done|done| |].
  - rewrite Hv, <- app_assoc. done.
  - rewrite Hv, length_app. cbn [length] in Hlen |- *. lia.
Qed.
End Seeding.

(** ** Lemmas on numbers *)

Lemma dec_value_cons_app v l :
  fold_left (fun v c => v * 10 + (c - 48)) l v
  = v * 10 ^ Z.of_nat (length l) + dec_value l.
Proof.
  unfold dec_value. revert v. induction l as [|c l IH]; intros v; simpl.
  - lia.
  - rewrite IH, (IH (0 * 10 + (c - 48))). rewrite Nat2Z.inj_succ, Z.pow_succ_r by lia. lia.
Qed.

Lemma dec_value_cons c l :
  dec_value (c :: l) = (c - 48) * 10 ^ Z.of_nat (length l) + dec_value l.
Proof. unfold dec_value at 1. simpl. rewrite dec_value_cons_app. lia. Qed.

(** The loop of [printNumber] renders [n] in front of [acc] when the
    fuel covers the digits of [n]. *)
Lemma printNumber_digits_value f n acc :
  0 <= n < 10 ^ Z.of_nat f ->
  dec_value (printNumber_digits f n acc) = n * 10 ^ Z.of_nat (length acc) + dec_value acc.
Proof.
  revert n acc. induction f as [|f IH]; intros n acc Hn; simpl.
  - assert (n = 0) as -> by lia. lia.
  - pose proof (Z.div_mod n 10 ltac:(lia)) as Hdm.
    pose proof (Z.mod_pos_bound n 10 ltac:(lia)) as Hm.
    assert (Hq : 0 <= n / 10 < 10 ^ Z.of_nat f).
    { rewrite Nat2Z.inj_succ, Z.pow_succ_r in Hn by lia. split; [apply Z.div_pos; lia|].
      apply Z.div_lt_upper_bound; lia. }
    destruct (Z.eqb_spec (n / 10) 0) as [H0|H0].
    + rewrite dec_value_cons. lia.
    + rewrite (IH _ _ Hq), dec_value_cons. cbn [length]. rewrite Nat2Z.inj_succ, Z.pow_succ_r by lia.
      nia.
Qed.

Lemma printNumber_digits_digits f n acc :
  0 <= n -> Forall is_digit acc -> Forall is_digit (printNumber_digits f n acc).
Proof.
  revert n acc. induction f as [|f IH]; intros n acc Hn Hacc; simpl; [done|].
  pose proof (Z.mod_pos_bound n 10 ltac:(lia)).
  assert (Hd : Forall is_digit ((48 + n mod 10) :: acc)) by (constructor; [unfold is_digit; lia|done]).
  destruct (n / 10 =? 0); [done|]. apply IH; [apply Z.div_pos; lia|done].
Qed.

Lemma printNumber_digits_nonempty f n acc :
  (0 < f)%nat -> printNumber_digits f n acc <> [].
Proof.
  revert n acc. induction f as [|f IH]; intros n acc Hf; simpl; [lia|].
  destruct (n / 10 =? 0); [done|]. destruct f; [done|]. apply IH. lia.
Qed.

Lemma printNumber_digits_fuel f g n acc :
  0 <= n < 10 ^ Z.of_nat (S f) -> (f <= g)%nat ->
  printNumber_digits (S f) n acc = printNumber_digits (S g) n acc.
Proof.
  revert g n acc. induction f as [|f IH]; intros g n acc Hn Hfg; cbn [printNumber_digits].
  - by rewrite Z.div_small by (simpl in Hn; lia).
  - destruct (Z.eqb_spec (n / 10) 0) as [H0|H0]; [done|].
    destruct g as [|g]; [lia|]. apply IH; [|lia].
    rewrite Nat2Z.inj_succ, Z.pow_succ_r in Hn by lia. split; [apply Z.div_pos; lia|].
    apply Z.div_lt_upper_bound; lia.
Qed.

(** [Print::printNumber] renders every [unsigned long] as a non-empty
    string of decimal digits whose value is the number. *)
Lemma printNumber_roundtrip n :
  0 <= n < 2 ^ 32 ->
  printNumber n <> [] /\ Forall is_digit (printNumber n) /\ dec_value (printNumber n) = n.
Proof.
  intros Hn. split; [apply printNumber_digits_nonempty; lia|]. split.
  - apply printNumber_digits_digits; [lia|constructor].
  - unfold printNumber. rewrite printNumber_digits_value; [cbn; lia|]. simpl. lia.
Qed.

(** The digit loop of [printNumber] ends within 10 iterations for every
    32-bit value: any buffer of 10 or more digits, the 32 of the Arduino
    core included, gives the same rendering, so the fuel never runs out. *)
Lemma printNumber_fuel f n :
  0 <= n < 2 ^ 32 -> (10 <= f)%nat -> printNumber_digits f n [] = printNumber n.
Proof.
  intros Hn Hf. destruct f as [|f]; [lia|]. unfold printNumber.
  assert (H10 : 0 <= n < 10 ^ Z.of_nat 10) by (simpl; lia).
  transitivity (printNumber_digits 10 n []).
  - symmetry. apply printNumber_digits_fuel; [exact H10|lia].
  - apply printNumber_digits_fuel; [exact H10|lia].
Qed.

(** ** Properties *)

(** C25: on a full table (50 cards or more), [addPredefinedUIDs] writes
    nothing, yet for every factory text the table does not hold it prints
    the refusal of [addUID] followed by line 217's announcement that the
    text was added. *)
Theorem addPredefinedUIDs_full_announces s :
  maxCards <= cardCount s ->
  addPredefinedUIDs_io s =
    (s, concat (seed_lines LimitExceeded <$> filter (fun id => checkUID s id = false) predefinedUIDs)).
Proof. intros Hfull. unfold addPredefinedUIDs_io. exact (seed_io_full_gen s predefinedUIDs Hfull). Qed.

(** A table whose count byte says 50. *)
Definition full_table : store (gmap Z Z) := load (<[0 := 50]> ∅).

Lemma addPredefinedUIDs_full_announces_witness :
  maxCards <= cardCount full_table /\
  addPredefinedUIDs_io full_table =
    (full_table, concat (seed_lines LimitExceeded <$>
                   filter (fun id => checkUID full_table id = false) predefinedUIDs)).
Proof.
  assert (H : maxCards <= cardCount full_table) by (vm_compute; discriminate).
  split; [exact H|]. exact (addPredefinedUIDs_full_announces full_table H).
Defined.
