(* ===== verification/Controller.v ===== *)
(** * Controller: [setup] and [loop] (main.cpp lines 13-19, 67-159)

    The globals of the sketch ([addMode], [lastReadTime]), the clock
    [millis()] (a 32-bit counter that [delay] advances), the direction of
    the relay pin ([pinMode]; an input after a reset), its level with the
    log of every [digitalWrite], and the store form the
    controller state [ctrl].  [loop] is the body of the Arduino loop: the
    debounce test, the read, and [handle_read], the branch on the card
    (master, reset, enrollment, normal).  The reader is an input: the
    firmware answer of [getFirmwareVersion] at boot, and for each poll the
    time [readPassiveTargetID] blocks and the UID bytes it returns.

    The serial line is the stream [serial] of the bytes printed since
    [setup] ([Serial_print], [Serial_println], with the messages of
    [Serial]); a restart and the halt of [setup] carry what was printed.

    The whole device is the step relation [step] over [sys]: power on or
    restart runs [setup] (or halts it when the reader does not answer),
    time passes, a poll runs [loop], and power may be cut between steps,
    between the EEPROM writes of the seeding in [setup], or between those
    of an enrollment.  The relay is active low: HIGH ([true]) is
    released, LOW ([false]) energizes it. *)

From S2P Require Import Prelude Codec Eeprom Store Provision Serial.
#[local] Open Scope Z_scope.
#[local] Open Scope hodor_scope.

(** ** Constants *)

#[local] Open Scope string_scope.
(** [String masterUID = "D3EC2B28";] *)
Definition masterUID : list Z := str "D3EC2B28".
(** [String eepromResetUID = "B2C82C1B";] *)
Definition eepromResetUID : list Z := str "B2C82C1B".
#[local] Close Scope string_scope.

(** [const unsigned long debounceDelay = 3000;] *)
Definition debounceDelay : Z := 3000.

Definition HIGH : bool := true.
Definition LOW : bool := false.

(** The modes of [pinMode] the sketch uses; a pin is an [INPUT] after a
    reset (the data direction registers of the AVR clear). *)
Inductive pin_mode := INPUT | OUTPUT.

(** ** State *)

Record ctrl (E : Type) := mkCtrl {
  st : store E;                 (** [cardCount] and the EEPROM *)
  addMode : bool;               (** [bool addMode] *)
  lastReadTime : Z;             (** [unsigned long lastReadTime] *)
  clock : Z;                    (** what [millis()] returns *)
  relay_mode : pin_mode;        (** the last [pinMode(relayPin, _)] *)
  relay : bool;                 (** the level last written to [relayPin] *)
  relay_log : list (Z * bool);  (** every [digitalWrite(relayPin, _)], timed *)
  serial : list Z               (** the bytes written to [Serial] since [setup] *)
}.
Arguments mkCtrl {E} _ _ _ _ _ _ _ _.
Arguments st {E} _.
Arguments addMode {E} _.
Arguments lastReadTime {E} _.
Arguments clock {E} _.
Arguments relay_mode {E} _.
Arguments relay {E} _.
Arguments relay_log {E} _.
Arguments serial {E} _.

(** What a pass of [loop] ends in: the next pass, or the [jmp 0] of
    [resetEEPROM] with the EEPROM it leaves and what was printed. *)
Inductive loop_result (E : Type) := Continue (c : ctrl E) | Restart (e : E) (out : list Z).
Arguments Continue {E} _.
Arguments Restart {E} _ _.

(** The device: off (or restarting) with its EEPROM, halted in the
    [while (1);] of [setup] with what it printed, or running the loop. *)
Inductive sys (E : Type) := Off (e : E) | Halted (e : E) (out : list Z) | Running (c : ctrl E).
Arguments Off {E} _.
Arguments Halted {E} _ _.
Arguments Running {E} _.

(** The environment's inputs to the device, for running it: power on
    (with the reader's firmware answer), time passing, a poll of the
    reader, and a power cut. *)
Inductive event := Boot (fw : Z) | Tick (d : Z) | Poll (wait : Z) (rd : option (list Z)) | Cut.

Section Controller.
Context `{EepromLaws E}.

Definition set_store (c : ctrl E) (s : store E) : ctrl E :=
  mkCtrl s (addMode c) (lastReadTime c) (clock c) (relay_mode c) (relay c) (relay_log c)
         (serial c).
Definition set_addMode (c : ctrl E) (b : bool) : ctrl E :=
  mkCtrl (st c) b (lastReadTime c) (clock c) (relay_mode c) (relay c) (relay_log c)
         (serial c).
Definition set_lastReadTime (c : ctrl E) (t : Z) : ctrl E :=
  mkCtrl (st c) (addMode c) t (clock c) (relay_mode c) (relay c) (relay_log c)
         (serial c).

(** [delay(ms)]: the clock advances, modulo 2^32. *)
Definition delay (c : ctrl E) (ms : Z) : ctrl E :=
  mkCtrl (st c) (addMode c) (lastReadTime c) (wrap32 (clock c + ms)) (relay_mode c) (relay c)
         (relay_log c) (serial c).

(** [digitalWrite(relayPin, v)], logged with the time. *)
Definition digitalWrite (c : ctrl E) (v : bool) : ctrl E :=
  mkCtrl (st c) (addMode c) (lastReadTime c) (clock c) (relay_mode c) v
         (relay_log c ++ [(clock c, v)]) (serial c).

(** [pinMode(relayPin, m)]: the direction of the pin. *)
Definition pinMode (c : ctrl E) (m : pin_mode) : ctrl E :=
  mkCtrl (st c) (addMode c) (lastReadTime c) (clock c) m (relay c) (relay_log c) (serial c).

(** [Serial.print(s)] and [Serial.println(s)]. *)
Definition Serial_print (c : ctrl E) (s : list Z) : ctrl E :=
  mkCtrl (st c) (addMode c) (lastReadTime c) (clock c) (relay_mode c) (relay c) (relay_log c)
         (serial c ++ s).
Definition Serial_println (c : ctrl E) (s : list Z) : ctrl E := Serial_print c (println s).

(** Lines 126-132: two one-second pulses of the relay. *)
Definition master_pulses (c : ctrl E) : ctrl E :=
  let c := delay (digitalWrite c LOW) 1000 in
  let c := delay (digitalWrite c HIGH) 1000 in
  let c := delay (digitalWrite c LOW) 1000 in
  digitalWrite c HIGH.

(** Lines 151-153: the relay energized for three seconds. *)
Definition grant (c : ctrl E) : ctrl E :=
  digitalWrite (delay (digitalWrite c LOW) 3000) HIGH.

(** Lines 112-158, after a successful read of [uid]: the time stamp,
    the rendering and its echo, and the branch on the card.  The reset
    branch prints the message of [resetEEPROM] (line 163) after its
    write; the enrollment branch announces the card (line 141) before
    [addUID] prints its outcome. *)
Definition handle_read (c : ctrl E) (uid : list Z) : loop_result E :=
  let c := set_lastReadTime c (clock c) in
  let content := encode uid in
  let c := Serial_println (Serial_print c msg_read) content in
  if content == masterUID then
    Continue (master_pulses (set_addMode (Serial_println c msg_master) true))
  else if content == eepromResetUID then
    Restart (resetEEPROM (st c)) (serial c ++ println msg_reset)
  else if addMode c then
    let c := Serial_println c (msg_new_card ++ content) in
    let r := addUID (st c) content in
    let c := Serial_println (set_store c r.1) (addUID_msg r.2) in
    Continue (delay (set_addMode c false) 2000)
  else if checkUID (st c) content then
    Continue (delay (grant (Serial_println c msg_granted)) 2000)
  else
    Continue (delay (Serial_println c msg_denied) 2000).

(** [loop] (lines 97-159): nothing within [debounceDelay] of the last
    read; otherwise the reader is polled, which takes [wait] ms, and a
    card is handled. *)
Definition loop (c : ctrl E) (wait : Z) (rd : option (list Z)) : loop_result E :=
  if wrap32 (clock c - lastReadTime c) <? debounceDelay then Continue c
  else
    let c := delay c wait in
    match rd with
    | None => Continue c
    | Some uid => handle_read c uid
    end.

(** [setup] (lines 67-95) on the EEPROM [e], with the answer [fw] of
    [getFirmwareVersion]: halt when it is 0, else release the relay, load
    the count, print it and seed the factory cards.  The globals start at
    their initializers ([cardCount = 0], line 13) and [millis()] at 0, as
    after a reset. *)
Definition setup (fw : Z) (e : E) : sys E :=
  let c := mkCtrl (mkStore e 0) false 0 0 INPUT LOW [] [] in
  if fw =? 0 then Halted e (serial c ++ msg_no_reader)
  else
    let c := Serial_println c msg_ready in
    let c := pinMode c OUTPUT in
    let c := digitalWrite c HIGH in
    let c := set_store c (load (eeprom (st c))) in
    let c := Serial_println (Serial_print c msg_count) (print_long (cardCount (st c))) in
    let r := addPredefinedUIDs_io (st c) in
    Running (Serial_print (set_store c r.1) r.2).

(** The EEPROM of the device in any state. *)
Definition sys_eeprom (s : sys E) : E :=
  match s with
  | Off e | Halted e _ => e
  | Running c => eeprom (st c)
  end.

Definition of_result (r : loop_result E) : sys E :=
  match r with
  | Continue c => Running c
  | Restart e _ => Off e
  end.

(** The device's steps, for a reader whose UIDs satisfy [ok] ([ok]
    is [fun _ => True] for any reader).  [step_cut_setup] is a power cut
    after [k] of the EEPROM writes of the seeding in [setup];
    [step_cut_enroll] is one after [k] of the EEPROM writes of the
    enrollment branch. *)
Inductive step (ok : list Z -> Prop) : sys E -> sys E -> Prop :=
| step_boot e fw : step ok (Off e) (setup fw e)
| step_tick c d : 0 <= d -> step ok (Running c) (Running (delay c d))
| step_poll c wait rd :
    0 <= wait -> (forall uid, rd = Some uid -> ok uid) ->
    step ok (Running c) (of_result (loop c wait rd))
| step_cut s : step ok s (Off (sys_eeprom s))
| step_cut_setup e fw k :
    fw <> 0 -> step ok (Off e) (Off (ee_write_all e (take k (seed_writes (load e) predefinedUIDs))))
| step_cut_enroll c wait uid k :
    0 <= wait -> ok uid ->
    debounceDelay <= wrap32 (clock c - lastReadTime c) ->
    encode uid <> masterUID -> encode uid <> eepromResetUID -> addMode c = true ->
    step ok (Running c)
         (Off (ee_write_all (eeprom (st c)) (take k (addUID_writes (st c) (encode uid))))).

(** The states reachable from [s0]. *)
Inductive reachable (ok : list Z -> Prop) (s0 : sys E) : sys E -> Prop :=
| reach_init : reachable ok s0 s0
| reach_step s s' : reachable ok s0 s -> step ok s s' -> reachable ok s0 s'.

(** ** Lemmas *)

(** The effects on an explicit state, for rewriting a sequence of them
    from the innermost out without copying the state. *)
Lemma delay_mk s a l t m r g o ms :
  delay (mkCtrl s a l t m r g o) ms = mkCtrl s a l (wrap32 (t + ms)) m r g o.
Proof. reflexivity. Qed.
Lemma digitalWrite_mk s a l t m r g o v :
  digitalWrite (mkCtrl s a l t m r g o) v = mkCtrl s a l t m v (g ++ [(t, v)]) o.
Proof. reflexivity. Qed.
Lemma set_addMode_mk s a l t m r g o b :
  set_addMode (mkCtrl s a l t m r g o) b = mkCtrl s b l t m r g o.
Proof. reflexivity. Qed.
Lemma set_lastReadTime_mk s a l t m r g o t' :
  set_lastReadTime (mkCtrl s a l t m r g o) t' = mkCtrl s a t' t m r g o.
Proof. reflexivity. Qed.
Lemma set_store_mk s a l t m r g o s' :
  set_store (mkCtrl s a l t m r g o) s' = mkCtrl s' a l t m r g o.
Proof. reflexivity. Qed.
Lemma pinMode_mk s a l t m r g o m' :
  pinMode (mkCtrl s a l t m r g o) m' = mkCtrl s a l t m' r g o.
Proof. reflexivity. Qed.
Lemma Serial_print_mk s a l t m r g o x :
  Serial_print (mkCtrl s a l t m r g o) x = mkCtrl s a l t m r g (o ++ x).
Proof. reflexivity. Qed.
Lemma Serial_println_mk s a l t m r g o x :
  Serial_println (mkCtrl s a l t m r g o) x = mkCtrl s a l t m r g (o ++ println x).
Proof. reflexivity. Qed.

Ltac ctrl_simpl :=
  repeat (first [ rewrite delay_mk | rewrite digitalWrite_mk | rewrite pinMode_mk
                | rewrite set_addMode_mk
                | rewrite set_lastReadTime_mk | rewrite set_store_mk
                | rewrite Serial_println_mk | rewrite Serial_print_mk ]).

(** The state after the read of a card and the echo of its text (lines
    112-120). *)
Abbreviation echoed c uid :=
  (Serial_println (Serial_print (set_lastReadTime c (clock c)) msg_read) (encode uid)).

(** A pass outside the debounce window polls the reader. *)
Lemma loop_polls c wait rd :
  debounceDelay <= wrap32 (clock c - lastReadTime c) ->
  loop c wait rd = match rd with
                   | None => Continue (delay c wait)
                   | Some uid => handle_read (delay c wait) uid
                   end.
Proof. intros Hd. unfold loop. by destruct (Z.ltb_spec (wrap32 (clock c - lastReadTime c)) debounceDelay); [lia|]. Qed.

Lemma master_ne_reset : masterUID <> eepromResetUID.
Proof. discriminate. Qed.

(** The four branches of [handle_read]. *)
Lemma handle_read_master c uid :
  encode uid = masterUID ->
  handle_read c uid = Continue (master_pulses (set_addMode (Serial_println (echoed c uid) msg_master) true)).
Proof. intros Hm. unfold handle_read. by rewrite Hm, str_eq_refl. Qed.

Lemma handle_read_reset c uid :
  encode uid = eepromResetUID ->
  handle_read c uid = Restart (resetEEPROM (st c)) (serial (echoed c uid) ++ println msg_reset).
Proof.
  intros Hr. unfold handle_read. rewrite Hr, str_eq_refl.
  by destruct (str_eq_spec eepromResetUID masterUID) as [Heq|]; [discriminate Heq|].
Qed.

Lemma handle_read_plain c uid :
  encode uid <> masterUID -> encode uid <> eepromResetUID ->
  handle_read c uid =
    let c := echoed c uid in
    if addMode c then
      let c := Serial_println c (msg_new_card ++ encode uid) in
      let r := addUID (st c) (encode uid) in
      Continue (delay (set_addMode (Serial_println (set_store c r.1) (addUID_msg r.2)) false) 2000)
    else if checkUID (st c) (encode uid) then
      Continue (delay (grant (Serial_println c msg_granted)) 2000)
    else Continue (delay (Serial_println c msg_denied) 2000).
Proof.
  intros Hm Hr. unfold handle_read.
  destruct (str_eq_spec (encode uid) masterUID); [done|].
  by destruct (str_eq_spec (encode uid) eepromResetUID).
Qed.

(** Where the table of the device goes in one pass of [handle_read]. *)
Lemma handle_read_store c uid :
  match handle_read c uid with
  | Continue c' => st c' = st c \/ (addMode c = true /\ st c' = (addUID (st c) (encode uid)).1)
  | Restart e _ => e = resetEEPROM (st c)
  end.
Proof.
  unfold handle_read. cbn [st set_lastReadTime addMode Serial_println Serial_print set_store].
  destruct (encode uid == masterUID); [by left|].
  destruct (encode uid == eepromResetUID); [done|].
  destruct (addMode c); [by right|].
  destruct (checkUID (st c) (encode uid)); by left.
Qed.

(** Every character of a rendered UID is a byte other than NUL. *)
Lemma encode_is_text uid : is_text (encode uid).
Proof.
  eapply Forall_impl; [apply encode_hex_upper|].
  intros x. unfold is_hex_upper.
  repeat match goal with |- context [?a <=? ?b] => destruct (Z.leb_spec a b) end;
    simpl; lia || discriminate.
Qed.

(** The table of a device state is well formed. *)
Definition sys_wf (s : sys E) : Prop :=
  match s with
  | Off e | Halted e _ => store_wf (load e)
  | Running c => store_wf (st c)
  end.

(** A rendering that fits the 12-byte slot. *)
Definition fits_slot (uid : list Z) : Prop := (length (encode uid) <= 12)%nat.


Lemma setup_wf fw e : store_wf (load e) -> sys_wf (setup fw e).
Proof.
  intros Hwf. unfold setup. destruct (fw =? 0); [done|].
  cbn [sys_wf st Serial_print Serial_println set_store digitalWrite pinMode eeprom].
  rewrite addPredefinedUIDs_io_store.
  apply (seed_refines (load e) predefinedUIDs Hwf predefined_fit).
Qed.

Lemma loop_wf c w rd :
  store_wf (st c) -> (forall uid, rd = Some uid -> fits_slot uid) ->
  sys_wf (of_result (loop c w rd)).
Proof.
  intros Hwf Hok. unfold loop.
  destruct (wrap32 (clock c - lastReadTime c) <? debounceDelay); [done|].
  destruct rd as [uid|]; [|done].
  pose proof (handle_read_store (delay c w) uid) as Hs.
  destruct (handle_read (delay c w) uid) as [c'|e' o']; simpl in *.
  - destruct Hs as [->|[_ ->]]; [done|].
    apply (addUID_abs_wf (st c) (encode uid) Hwf (encode_is_text uid) (Hok uid eq_refl)).
  - subst e'. apply (resetEEPROM_load (st c)).
Qed.

Lemma step_wf s s' :
  step fits_slot s s' -> sys_wf s -> sys_wf s'.
Proof.
  destruct 1 as [e fw|c d Hd|c w rd Hw Hok|s|e fw k Hfw|c w uid k Hw Hok Hdb Hm Hr Hadd];
    intros Hwf.
  - by apply setup_wf.
  - done.
  - by apply loop_wf.
  - destruct s as [e|e o|c]; simpl in *; [done|done|]. by rewrite load_wf_eeprom.
  - apply (seed_crash (load e) predefinedUIDs k Hwf predefined_fit).
  - apply (addUID_crash (st c) (encode uid) k Hwf (encode_is_text uid) Hok).
Qed.

(** The pass of [loop] in normal mode, exactly. *)
Lemma loop_normal c wait uid :
  debounceDelay <= wrap32 (clock c - lastReadTime c) ->
  encode uid <> masterUID -> encode uid <> eepromResetUID -> addMode c = false ->
  loop c wait (Some uid) =
    let t := clock c + wait in
    let granted := checkUID (st c) (encode uid) in
    Continue (mkCtrl (st c) false (wrap32 t) (wrap32 (t + if granted then 5000 else 2000))
                     (relay_mode c) (if granted then HIGH else relay c)
                     (relay_log c ++ if granted then [(wrap32 t, LOW); (wrap32 (t + 3000), HIGH)]
                                     else [])
                     (serial c ++ msg_read ++ println (encode uid) ++
                        println (if granted then msg_granted else msg_denied))).
Proof.
  intros Hd Hm Hr Ha. rewrite loop_polls, handle_read_plain by done.
  destruct c as [s a l t m r g o]; cbn in Ha |- *; subst a.
  destruct (checkUID s (encode uid)); unfold grant;
    ctrl_simpl; cbn [clock];
    rewrite ?app_nil_r, <- ?app_assoc; wrap32_norm; reflexivity.
Qed.

(** The pass of [loop] on the master card, exactly. *)
Lemma loop_master c wait uid :
  debounceDelay <= wrap32 (clock c - lastReadTime c) -> encode uid = masterUID ->
  loop c wait (Some uid) =
    let t := clock c + wait in
    Continue (mkCtrl (st c) true (wrap32 t) (wrap32 (t + 3000)) (relay_mode c) HIGH
                (relay_log c ++ [(wrap32 t, LOW); (wrap32 (t + 1000), HIGH);
                                 (wrap32 (t + 2000), LOW); (wrap32 (t + 3000), HIGH)])
                (serial c ++ msg_read ++ println (encode uid) ++ println msg_master)).
Proof.
  intros Hd Hm. rewrite loop_polls, handle_read_master by done.
  destruct c as [s a l t m r g o]; cbn zeta. unfold master_pulses.
  ctrl_simpl. cbn [clock]. rewrite <- ?app_assoc. wrap32_norm. reflexivity.
Qed.

(** The pass of [loop] in enrollment mode, exactly. *)
Lemma loop_enroll c wait uid :
  debounceDelay <= wrap32 (clock c - lastReadTime c) ->
  encode uid <> masterUID -> encode uid <> eepromResetUID -> addMode c = true ->
  loop c wait (Some uid) =
    Continue (mkCtrl (addUID (st c) (encode uid)).1 false (wrap32 (clock c + wait))
                     (wrap32 (clock c + wait + 2000)) (relay_mode c) (relay c)
                     (relay_log c)
                     (serial c ++ msg_read ++ println (encode uid) ++
                        println (msg_new_card ++ encode uid) ++
                        println (addUID_msg (addUID (st c) (encode uid)).2))).
Proof.
  intros Hd Hm Hr Ha. rewrite loop_polls, handle_read_plain by done.
  destruct c as [s a l t m r g o]; cbn [addMode] in Ha; subst a. cbv zeta.
  cbn [st addMode clock lastReadTime relay relay_log serial].
  ctrl_simpl. cbn [st addMode]. ctrl_simpl. rewrite <- ?app_assoc. wrap32_norm. reflexivity.
Qed.

(** The relay is released in a device state: between two passes of
    [loop] the door is locked. *)
Definition relay_released (s : sys E) : Prop :=
  match s with Running c => relay c = HIGH | _ => True end.

(** Every pass of [loop] ends with the relay released. *)
Lemma loop_relay c w rd :
  relay c = HIGH -> relay_released (of_result (loop c w rd)).
Proof.
  intros Hr. unfold loop.
  destruct (wrap32 (clock c - lastReadTime c) <? debounceDelay); [done|].
  destruct rd as [uid|]; [|done]. unfold handle_read.
  destruct (encode uid == masterUID); [reflexivity|].
  destruct (encode uid == eepromResetUID); [done|].
  destruct (addMode _); [done|].
  destruct (checkUID _ _); [reflexivity|done].
Qed.

Lemma step_relay ok s s' : step ok s s' -> relay_released s -> relay_released s'.
Proof.
  destruct 1 as [e fw|c d Hd|c w rd Hw Hok|s|e fw k Hfw|c w uid k Hw Hok Hdb Hm Hr Hadd];
    intros Hrel; try done.
  - unfold setup. by destruct (fw =? 0).
  - by apply loop_relay.
Qed.

(** A running device has [relayPin] configured as an output, so that
    its [digitalWrite]s drive the relay. *)
Definition relay_output (s : sys E) : Prop :=
  match s with Running c => relay_mode c = OUTPUT | _ => True end.

(** [loop] never calls [pinMode]. *)
Lemma loop_relay_mode c w rd :
  match loop c w rd with Continue c' => relay_mode c' = relay_mode c | Restart _ _ => True end.
Proof.
  unfold loop. destruct (_ <? _); [done|].
  destruct rd as [uid|]; [|done]. unfold handle_read.
  destruct (encode uid == masterUID); [done|].
  destruct (encode uid == eepromResetUID); [done|].
  destruct (addMode _); [done|].
  by destruct (checkUID _ _).
Qed.

Lemma step_relay_output ok s s' : step ok s s' -> relay_output s -> relay_output s'.
Proof.
  destruct 1 as [e fw|c d Hd|c w rd Hw Hok|s|e fw k Hfw|c w uid k Hw Hok Hdb Hm Hr Hadd];
    intros Hrel; try done.
  - unfold setup. by destruct (fw =? 0).
  - cbn in Hrel. pose proof (loop_relay_mode c w rd) as Hl.
    destruct (loop c w rd); cbn; congruence.
Qed.

(** The boot from an EEPROM whose count byte is 0 (what the reset card
    leaves): what [setup] prints, exactly. *)
Lemma setup_log_zero e fw :
  ee_read e 0 = 0 -> fw <> 0 ->
  exists c, setup fw e = Running c /\
    serial c = println msg_ready ++ msg_count ++ println (print_long 0) ++
               concat (seed_lines Added <$> predefinedUIDs).
Proof.
  intros He Hfw. unfold setup. destruct (Z.eqb_spec fw 0); [done|].
  eexists. split; [reflexivity|].
  cbn [serial st Serial_print Serial_println set_store digitalWrite pinMode eeprom cardCount load].
  rewrite He. destruct (load_zero e He) as [Hwf Hv].
  unfold addPredefinedUIDs_io.
  rewrite (seed_io_all_added (load e) predefinedUIDs Hwf predefined_fit); cycle 1.
  - rewrite Hv. exact predefined_nodup.
  - rewrite Hv. cbn [length]. unfold maxCards. vm_compute. lia.
  - by rewrite <- !app_assoc.
Qed.

(** ** Properties *)

(** C1: the invariant of the device: from an EEPROM whose table is well
    formed, every reachable state (boots, polls, restarts, power cuts
    between steps and between the EEPROM writes of an enrollment) has a
    well-formed table (count in 0..50, equal to byte 0, no duplicates),
    for a reader whose UIDs render to at most 12 characters. *)
Theorem reachable_store_wf e s :
  store_wf (load e) -> reachable fits_slot (Off e) s -> sys_wf s.
Proof. intros Hwf. induction 1 as [|s s' _ IH Hstep]; [done|]. by eapply step_wf. Qed.

(** C6: debounce (lines 99-101), across the wrap-around of the 32-bit
    [millis()]: [d] ms after the last accepted read, a pass of [loop]
    does nothing, not even poll the reader, when [d < 3000], and polls
    and handles the card otherwise. *)
Theorem debounce_window c d wait rd :
  0 <= d < 2 ^ 32 -> clock c = wrap32 (lastReadTime c + d) ->
  (d < debounceDelay -> loop c wait rd = Continue c) /\
  (debounceDelay <= d -> loop c wait rd = match rd with
                                        | None => Continue (delay c wait)
                                        | Some uid => handle_read (delay c wait) uid
                                        end).
Proof.
  intros Hd Hc. assert (He : wrap32 (clock c - lastReadTime c) = d).
  { rewrite Hc. by apply wrap32_elapsed. }
  split; intros Hdb; [|by apply loop_polls; lia].
  unfold loop. rewrite He. by destruct (Z.ltb_spec d debounceDelay); [|lia].
Qed.

(** C9: the master card (lines 123-133) arms enrollment whatever the
    mode, leaves the table alone, stamps the read time, echoes the card
    and prints the enrollment notice, and drives the relay LOW, HIGH,
    LOW, HIGH one second apart: two pulses, where the design asks for
    three. *)
Theorem master_card_arms c wait uid :
  debounceDelay <= wrap32 (clock c - lastReadTime c) -> encode uid = masterUID ->
  loop c wait (Some uid) =
    let t := clock c + wait in
    Continue (mkCtrl (st c) true (wrap32 t) (wrap32 (t + 3000)) (relay_mode c) HIGH
                (relay_log c ++ [(wrap32 t, LOW); (wrap32 (t + 1000), HIGH);
                                 (wrap32 (t + 2000), LOW); (wrap32 (t + 3000), HIGH)])
                (serial c ++ msg_read ++ println (encode uid) ++ println msg_master)).
Proof. apply loop_master. Qed.

(** C8: the reset card (lines 134-136, 161-166), in enrollment mode or
    not, writes 0 to the count byte and nothing else, prints the reset
    notice after the echo of the card, and restarts; the
    [setup] that follows (when the reader answers) starts with
    enrollment off, the time stamps at 0, and a table holding exactly
    the 31 factory cards: the reset card wipes the enrolled cards only. *)
Theorem reset_card_restores_factory c wait uid fw :
  debounceDelay <= wrap32 (clock c - lastReadTime c) -> encode uid = eepromResetUID -> fw <> 0 ->
  exists e, loop c wait (Some uid) =
            Restart e (serial c ++ msg_read ++ println (encode uid) ++ println msg_reset) /\
    ee_read e 0 = 0 /\
    (forall j, 0 <= j -> readUIDFromEEPROM e j = readUIDFromEEPROM (eeprom (st c)) j) /\
    exists c', setup fw e = Running c' /\ view (st c') = predefinedUIDs /\
               addMode c' = false /\ lastReadTime c' = 0 /\ clock c' = 0.
Proof.
  intros Hd Hr Hfw. rewrite loop_polls, handle_read_reset by done.
  exists (resetEEPROM (st c)). split.
  { cbn [serial Serial_println Serial_print set_lastReadTime delay]. by rewrite <- !app_assoc. }
  assert (H0 : ee_read (resetEEPROM (st c)) 0 = 0).
  { unfold resetEEPROM. rewrite ee_read_write_eq. by apply to_u8_small. }
  split; [done|]. split; [intros j Hj; by apply read_header_write|].
  unfold setup. destruct (Z.eqb_spec fw 0); [done|]. eexists. split; [reflexivity|].
  cbn [st set_store digitalWrite pinMode addMode lastReadTime clock Serial_print Serial_println eeprom].
  rewrite addPredefinedUIDs_io_store.
  split; [|done]. apply (seed_from_zero (resetEEPROM (st c)) H0).
Qed.

(** C5: enrollment is single-shot (lines 140-146): in enrollment mode a
    card other than the master and reset cards is given to [addUID]
    (whatever its outcome), enrollment ends and the relay is not
    touched; once the debounce window after that pass has passed, the
    next card the reader returns (other than the master and reset
    cards) is handled in normal mode: the table is unchanged, the mode
    stays off, and the line shows the echo and the grant or the denial,
    not a second enrollment. *)
Theorem enrollment_single_shot c wait uid :
  debounceDelay <= wrap32 (clock c - lastReadTime c) ->
  encode uid <> masterUID -> encode uid <> eepromResetUID -> addMode c = true ->
  (exists c', loop c wait (Some uid) = Continue c' /\ st c' = (addUID (st c) (encode uid)).1 /\
     addMode c' = false /\ relay c' = relay c /\ relay_log c' = relay_log c) /\
  (forall c' d wait' uid', loop c wait (Some uid) = Continue c' ->
     debounceDelay <= wrap32 (clock (delay c' d) - lastReadTime (delay c' d)) ->
     encode uid' <> masterUID -> encode uid' <> eepromResetUID ->
     exists c'', loop (delay c' d) wait' (Some uid') = Continue c'' /\ st c'' = st c' /\
       addMode c'' = false /\
       serial c'' = serial c' ++ msg_read ++ println (encode uid') ++
                    println (if checkUID (st c') (encode uid') then msg_granted else msg_denied)).
Proof.
  intros Hd Hm Hr Ha. pose proof (loop_enroll c wait uid Hd Hm Hr Ha) as Hl.
  split; [rewrite Hl; eexists; by split|].
  intros c' d wait' uid' Hc' Hd' Hm' Hr'. rewrite Hl in Hc'. injection Hc' as <-.
  rewrite (loop_normal _ wait' uid' Hd' Hm' Hr' eq_refl). cbv zeta.
  eexists. split; [reflexivity|]. done.
Qed.

(** C7: normal mode (lines 148-157): a card other than the master and
    reset cards leaves the table and the mode alone; when [checkUID]
    finds it the relay is energized for 3 s and "Yetkili erişim." is
    printed, otherwise the relay is not written and "Erişim reddedildi."
    is printed (after the echo of the card); the pass ends 2 s after
    that. *)
Theorem normal_mode_grant_deny c wait uid :
  debounceDelay <= wrap32 (clock c - lastReadTime c) ->
  encode uid <> masterUID -> encode uid <> eepromResetUID -> addMode c = false ->
  loop c wait (Some uid) =
    let t := clock c + wait in
    let granted := checkUID (st c) (encode uid) in
    Continue (mkCtrl (st c) false (wrap32 t) (wrap32 (t + if granted then 5000 else 2000))
                     (relay_mode c) (if granted then HIGH else relay c)
                     (relay_log c ++ if granted then [(wrap32 t, LOW); (wrap32 (t + 3000), HIGH)]
                                     else [])
                     (serial c ++ msg_read ++ println (encode uid) ++
                        println (if granted then msg_granted else msg_denied))).
Proof. apply loop_normal. Qed.

(** C15: the debounce window does not cover the grant (a design goal of
    [debounceDelay]): a granted pass ends 5 s after the read, past the
    3 s window, so a card still on the reader is read again at once and
    energizes the relay again. *)
Theorem grant_rereads_immediately c wait uid :
  debounceDelay <= wrap32 (clock c - lastReadTime c) ->
  encode uid <> masterUID -> encode uid <> eepromResetUID -> addMode c = false ->
  checkUID (st c) (encode uid) = true ->
  exists c', loop c wait (Some uid) = Continue c' /\
    wrap32 (clock c' - lastReadTime c') = 5000 /\
    forall wait', exists c'', loop c' wait' (Some uid) = Continue c'' /\
      relay_log c'' = relay_log c' ++ [(wrap32 (clock c' + wait'), LOW);
                                       (wrap32 (clock c' + wait' + 3000), HIGH)].
Proof.
  intros Hd Hm Hr Ha Hg. rewrite loop_normal by done. rewrite Hg. cbv zeta.
  eexists. split; [reflexivity|]. cbn [clock lastReadTime].
  assert (He : wrap32 (wrap32 (clock c + wait + 5000) - wrap32 (clock c + wait)) = 5000).
  { rewrite wrap32_sub_wrap. apply wrap32_elapsed. lia. }
  split; [done|]. intros wait'. rewrite loop_normal by (cbn; rewrite ?He; done || lia).
  cbn [st]. rewrite Hg. eexists. split; reflexivity.
Qed.

(** C14: a card whose UID renders to more than 12 characters (a 7-byte
    UID) is never granted in normal mode, even after its enrollment
    reported success: the pass leaves the table, the relay and its log
    as they were. *)
Theorem long_card_never_granted c wait uid c' :
  (12 < length (encode uid))%nat -> encode uid <> masterUID -> encode uid <> eepromResetUID ->
  addMode c = false -> loop c wait (Some uid) = Continue c' ->
  st c' = st c /\ relay c' = relay c /\ relay_log c' = relay_log c.
Proof.
  intros Hl Hm Hr Ha Hc.
  destruct (Z.le_gt_cases debounceDelay (wrap32 (clock c - lastReadTime c))) as [Hd|Hd].
  - rewrite loop_normal, checkUID_long_false in Hc by done. cbn in Hc.
    injection Hc as <-. cbn. by rewrite app_nil_r.
  - unfold loop in Hc. destruct (Z.ltb_spec (wrap32 (clock c - lastReadTime c)) debounceDelay);
      [|lia]. by injection Hc as <-.
Qed.

(** C34: safety of the door: in every state reachable from power-on,
    whatever the reader returns and wherever power is cut, a running
    device has the relay released (HIGH): every branch of [loop] that
    energizes it (the master pulses, the grant) releases it before the
    pass ends. *)
Theorem reachable_relay_released ok e s :
  reachable ok (Off e) s -> relay_released s.
Proof. induction 1 as [|s s' _ IH Hstep]; [done|]. by eapply step_relay. Qed.

(** C37: the relay pin is an output (line 85) in every state reachable
    from power-on: every boot that gets past the reader check configures
    it before its first [digitalWrite], and no pass of [loop], restart or
    power cut leaves a running device with the pin still an input (where
    a [digitalWrite] would only switch the pull-up and not drive the
    relay module). *)
Theorem reachable_relay_output ok e s :
  reachable ok (Off e) s -> relay_output s.
Proof. induction 1 as [|s s' _ IH Hstep]; [done|]. by eapply step_relay_output. Qed.

(** [setup] and [loop] driven by a sequence of inputs. *)
Definition sys_step (s : sys E) (ev : event) : sys E :=
  match s, ev with
  | Off e, Boot fw => setup fw e
  | Running c, Tick d => Running (delay c d)
  | Running c, Poll w rd => of_result (loop c w rd)
  | s, Cut => Off (sys_eeprom s)
  | s, _ => s
  end.

Definition run (s : sys E) (evs : list event) : sys E := fold_left sys_step evs s.

Definition event_ok (ok : list Z -> Prop) (ev : event) : Prop :=
  match ev with
  | Boot _ => True
  | Tick d => 0 <= d
  | Poll w rd => 0 <= w /\ forall uid, rd = Some uid -> ok uid
  | Cut => True
  end.

Lemma reachable_trans ok s0 s1 s2 :
  reachable ok s0 s1 -> reachable ok s1 s2 -> reachable ok s0 s2.
Proof. intros H1 H2. induction H2; [done|]. econstructor; eauto. Qed.

(** A run of valid inputs stays among the reachable states. *)
Lemma run_reachable ok s evs :
  Forall (event_ok ok) evs -> reachable ok s (run s evs).
Proof.
  intros Hevs. unfold run. revert s. induction Hevs as [|ev evs Hev _ IH]; intros s;
    [constructor|].
  simpl. eapply reachable_trans; [|apply IH].
  destruct s as [e|e o|c], ev as [fw|d|w rd|]; cbn [sys_step event_ok] in *;
    try apply reach_init;
    try (eapply reach_step; [apply reach_init|apply step_cut]).
  - eapply reach_step; [apply reach_init|apply step_boot].
  - eapply reach_step; [apply reach_init|by apply step_tick].
  - eapply reach_step; [apply reach_init|apply step_poll; tauto].
Qed.
End Controller.

#[export] Hint Rewrite @delay_mk @digitalWrite_mk @set_addMode_mk @set_lastReadTime_mk @set_store_mk : hodor_rw.

(** ** Concrete runs on the finite-map EEPROM *)

(** An EEPROM whose count byte is 0, the device booted on it, and the
    device 5 s later. *)
Definition fresh : gmap Z Z := <[0 := 0]> ∅.
Definition booted : ctrl (gmap Z Z) :=
  match setup 1 fresh with Running c => c | _ => mkCtrl (load fresh) false 0 0 OUTPUT HIGH [] [] end.
Definition ready : ctrl (gmap Z Z) := delay booted 5000.

(** Raw UIDs as the reader returns them. *)
Definition master_bytes : list Z := [0xD3; 0xEC; 0x2B; 0x28].
Definition reset_bytes : list Z := [0xB2; 0xC8; 0x2C; 0x1B].
Definition factory_bytes : list Z := [0x4A; 0x9F; 0x4D; 0x99].
Definition card_X : list Z := [0xA1; 0xB2; 0xC3; 0xD4].
Definition long_card : list Z := [0x11; 0x22; 0x33; 0x44; 0x55; 0x66; 0x77].

Definition scenario : list event :=
  [Boot 1; Tick 5000; Poll 0 (Some card_X); Tick 1000; Poll 0 (Some master_bytes);
   Poll 0 (Some card_X); Tick 1000; Poll 0 (Some card_X)].

(** The state the scenario ends in. *)
Definition scenario_final : ctrl (gmap Z Z) :=
  match run (Off fresh) scenario with Running c => c | _ => booted end.

Lemma reachable_store_wf_witness :
  store_wf (load fresh) /\ reachable fits_slot (Off fresh) (setup 1 fresh) /\
  sys_wf (setup 1 fresh).
Proof.
  assert (Hwf : store_wf (load fresh)) by (apply (bool_decide_eq_true_1 _); vm_compute; reflexivity).
  assert (Hr : reachable fits_slot (Off fresh) (setup 1 fresh)).
  { eapply reach_step; [apply reach_init|apply step_boot]. }
  split; [exact Hwf|]. split; [exact Hr|]. exact (reachable_store_wf fresh (setup 1 fresh) Hwf Hr).
Defined.

Lemma debounce_window_witness :
  0 <= 5000 < 2 ^ 32 /\
  clock (mkCtrl (load fresh) false (2 ^ 32 - 1000) 4000 OUTPUT HIGH [] []) =
    wrap32 (lastReadTime (mkCtrl (load fresh) false (2 ^ 32 - 1000) 4000 OUTPUT HIGH [] []) + 5000) /\
  loop (mkCtrl (load fresh) false (2 ^ 32 - 1000) 4000 OUTPUT HIGH [] []) 0 None =
    Continue (delay (mkCtrl (load fresh) false (2 ^ 32 - 1000) 4000 OUTPUT HIGH [] []) 0).
Proof.
  assert (H1 : 0 <= 5000 < 2 ^ 32) by lia.
  assert (H2 : clock (mkCtrl (load fresh) false (2 ^ 32 - 1000) 4000 OUTPUT HIGH [] []) =
    wrap32 (lastReadTime (mkCtrl (load fresh) false (2 ^ 32 - 1000) 4000 OUTPUT HIGH [] []) + 5000))
    by (vm_compute; reflexivity).
  split; [exact H1|]. split; [exact H2|].
  apply (proj2 (debounce_window (mkCtrl (load fresh) false (2 ^ 32 - 1000) 4000 OUTPUT HIGH [] []) 5000 0 None H1 H2)). unfold debounceDelay. lia.
Defined.

Lemma master_card_arms_witness :
  debounceDelay <= wrap32 (clock ready - lastReadTime ready) /\ encode master_bytes = masterUID /\
  exists c, loop ready 0 (Some master_bytes) = Continue c /\ addMode c = true /\ st c = st ready.
Proof.
  assert (H1 : debounceDelay <= wrap32 (clock ready - lastReadTime ready))
    by (vm_compute; discriminate).
  assert (H2 : encode master_bytes = masterUID) by reflexivity.
  split; [exact H1|]. split; [exact H2|].
  rewrite (master_card_arms ready 0 master_bytes H1 H2). eexists. by split.
Defined.

Lemma reset_card_restores_factory_witness :
  debounceDelay <= wrap32 (clock (set_addMode ready true) - lastReadTime (set_addMode ready true)) /\
  encode reset_bytes = eepromResetUID /\ 1 <> 0 /\
  exists e o, loop (set_addMode ready true) 0 (Some reset_bytes) = Restart e o /\ ee_read e 0 = 0.
Proof.
  assert (H1 : debounceDelay <= wrap32 (clock (set_addMode ready true)
                                        - lastReadTime (set_addMode ready true)))
    by (vm_compute; discriminate).
  assert (H2 : encode reset_bytes = eepromResetUID) by reflexivity.
  assert (H3 : 1 <> 0) by lia.
  split; [exact H1|]. split; [exact H2|]. split; [exact H3|].
  destruct (reset_card_restores_factory (set_addMode ready true) 0 reset_bytes 1 H1 H2 H3)
    as (e & He & H0 & _).
  exact (ex_intro _ e (ex_intro _ _ (conj He H0))).
Defined.

Lemma enrollment_single_shot_witness :
  debounceDelay <= wrap32 (clock (set_addMode ready true) - lastReadTime (set_addMode ready true)) /\
  encode card_X <> masterUID /\ encode card_X <> eepromResetUID /\
  addMode (set_addMode ready true) = true /\
  exists c' c'', loop (set_addMode ready true) 0 (Some card_X) = Continue c' /\
    st c' = (addUID (st (set_addMode ready true)) (encode card_X)).1 /\ addMode c' = false /\
    debounceDelay <= wrap32 (clock (delay c' 1000) - lastReadTime (delay c' 1000)) /\
    loop (delay c' 1000) 0 (Some card_X) = Continue c'' /\ st c'' = st c' /\
    addMode c'' = false.
Proof.
  assert (H1 : debounceDelay <= wrap32 (clock (set_addMode ready true)
                                        - lastReadTime (set_addMode ready true)))
    by (vm_compute; discriminate).
  assert (H2 : encode card_X <> masterUID) by (vm_compute; discriminate).
  assert (H3 : encode card_X <> eepromResetUID) by (vm_compute; discriminate).
  assert (H4 : addMode (set_addMode ready true) = true) by reflexivity.
  do 4 (split; [assumption|]).
  set (c1 := match loop (set_addMode ready true) 0 (Some card_X) with
             | Continue c => c | Restart _ _ => ready end).
  assert (Hl : loop (set_addMode ready true) 0 (Some card_X) = Continue c1)
    by (vm_compute; reflexivity).
  assert (Hd : debounceDelay <= wrap32 (clock (delay c1 1000) - lastReadTime (delay c1 1000)))
    by (vm_compute; discriminate).
  destruct (enrollment_single_shot (set_addMode ready true) 0 card_X H1 H2 H3 H4)
    as [(c' & Hc & Hs & Ha & _) Hnext].
  rewrite Hl in Hc. injection Hc as <-.
  destruct (Hnext c1 1000 0 card_X Hl Hd H2 H3) as (c'' & Hc'' & Hs' & Ha' & _).
  exists c1, c''. do 6 (split; [assumption|]). exact Ha'.
Defined.

Lemma normal_mode_grant_deny_witness :
  debounceDelay <= wrap32 (clock ready - lastReadTime ready) /\
  encode card_X <> masterUID /\ encode card_X <> eepromResetUID /\ addMode ready = false /\
  exists c, loop ready 0 (Some card_X) = Continue c /\ relay_log c = relay_log ready.
Proof.
  assert (H1 : debounceDelay <= wrap32 (clock ready - lastReadTime ready))
    by (vm_compute; discriminate).
  assert (H2 : encode card_X <> masterUID) by (vm_compute; discriminate).
  assert (H3 : encode card_X <> eepromResetUID) by (vm_compute; discriminate).
  assert (H4 : addMode ready = false) by reflexivity.
  do 4 (split; [assumption|]).
  rewrite (normal_mode_grant_deny ready 0 card_X H1 H2 H3 H4). cbv zeta.
  eexists. split; [reflexivity|]. vm_compute. reflexivity.
Defined.

Lemma grant_rereads_immediately_witness :
  debounceDelay <= wrap32 (clock ready - lastReadTime ready) /\
  encode factory_bytes <> masterUID /\ encode factory_bytes <> eepromResetUID /\
  addMode ready = false /\ checkUID (st ready) (encode factory_bytes) = true /\
  exists c', loop ready 0 (Some factory_bytes) = Continue c' /\
    wrap32 (clock c' - lastReadTime c') = 5000.
Proof.
  assert (H1 : debounceDelay <= wrap32 (clock ready - lastReadTime ready))
    by (vm_compute; discriminate).
  assert (H2 : encode factory_bytes <> masterUID) by (vm_compute; discriminate).
  assert (H3 : encode factory_bytes <> eepromResetUID) by (vm_compute; discriminate).
  assert (H4 : addMode ready = false) by reflexivity.
  assert (H5 : checkUID (st ready) (encode factory_bytes) = true) by (vm_compute; reflexivity).
  do 5 (split; [assumption|]).
  destruct (grant_rereads_immediately ready 0 factory_bytes H1 H2 H3 H4 H5) as (c' & Hc & He & _).
  exact (ex_intro _ c' (conj Hc He)).
Defined.

Lemma long_card_never_granted_witness :
  (12 < length (encode long_card))%nat /\ encode long_card <> masterUID /\
  encode long_card <> eepromResetUID /\ addMode ready = false /\
  exists c', loop ready 0 (Some long_card) = Continue c' /\ relay_log c' = relay_log ready.
Proof.
  assert (H1 : (12 < length (encode long_card))%nat) by (vm_compute; lia).
  assert (H2 : encode long_card <> masterUID) by (vm_compute; discriminate).
  assert (H3 : encode long_card <> eepromResetUID) by (vm_compute; discriminate).
  assert (H4 : addMode ready = false) by reflexivity.
  do 4 (split; [assumption|]).
  assert (Hk : match loop ready 0 (Some long_card) with Continue _ => True | _ => False end)
    by (vm_compute; exact I).
  destruct (loop ready 0 (Some long_card)) as [c'|e o] eqn:Hr; [|destruct Hk].
  exact (ex_intro _ c' (conj eq_refl
    (proj2 (proj2 (long_card_never_granted ready 0 long_card c' H1 H2 H3 H4 Hr))))).
Defined.

Lemma scenario_final_reachable :
  reachable (fun _ => True) (Off fresh) (Running scenario_final).
Proof.
  assert (Hrun : run (Off fresh) scenario = Running scenario_final) by (vm_compute; reflexivity).
  rewrite <- Hrun. apply run_reachable. repeat constructor; simpl; lia.
Qed.

Lemma reachable_relay_released_witness :
  reachable (fun _ => True) (Off fresh) (Running scenario_final) /\
  relay_released (Running scenario_final).
Proof.
  split; [exact scenario_final_reachable|].
  exact (reachable_relay_released (fun _ => True) fresh _ scenario_final_reachable).
Defined.

Lemma reachable_relay_output_witness :
  reachable (fun _ => True) (Off fresh) (Running scenario_final) /\
  relay_output (Running scenario_final).
Proof.
  split; [exact scenario_final_reachable|].
  exact (reachable_relay_output (fun _ => True) fresh _ scenario_final_reachable).
Defined.
