(* ===== verification/Refinement.v ===== *)
(** * Refinement: the controller against an abstract access controller

    What the sketch promises, stated without the EEPROM layout, the
    clock or the relay timing: an access controller holding a list of
    authorized texts and an "armed" flag, which on each card decides to
    arm enrollment (master card), wipe (reset card), enroll (bounded
    duplicate-free insertion, [abs_insert]) or grant or deny by
    membership.  [Abstract.decide_card] is that decision; [abs] reads the
    abstract state off a controller state ([view] of the table and
    [addMode]).  The theorems show that one pass of [loop] on a card
    implements the decision (with the serial lines and the number of
    relay writes the decision calls for), that every input to a running
    device moves the abstract state of the whole device ([abs_sys]) as
    [abs_move] says (the decision on the card the poll read, a disarm on
    a power cut, no change otherwise), and what the serial line shows at
    boot and during enrollment. *)

From S2P Require Import Prelude Codec Eeprom Store Provision Serial Controller.
#[local] Open Scope Z_scope.
#[local] Open Scope hodor_scope.

Module Abstract.

(** The authorized texts, in order, and whether the next card enrolls. *)
Record state := mkA { cards : list (list Z); armed : bool }.

(** What the controller does with a card. *)
Inductive decision := Arm | Wipe | Enroll (o : add_outcome) | Grant | Deny.

#[export] Instance decision_eq_dec : EqDecision decision.
Proof. solve_decision. Defined.

(** The decision on the text [content] of a card, and the next state.
    A wipe empties the list; the restart that follows reseeds it. *)
Definition decide_card (a : state) (content : list Z) : decision * state :=
  if decide (content = masterUID) then (Arm, mkA (cards a) true)
  else if decide (content = eepromResetUID) then (Wipe, mkA [] false)
  else if armed a then
    let r := abs_insert (cards a) content in (Enroll r.2, mkA r.1 false)
  else if decide (content ∈ cards a) then (Grant, a) else (Deny, a).

(** The serial lines that report a decision. *)
Definition lines (content : list Z) (d : decision) : list Z :=
  match d with
  | Arm => println msg_master
  | Wipe => println msg_reset
  | Enroll o => println (msg_new_card ++ content) ++ println (addUID_msg o)
  | Grant => println msg_granted
  | Deny => println msg_denied
  end.

(** The number of relay writes a decision makes: two pulses to
    acknowledge the master card, one opening for a grant. *)
Definition relay_writes (d : decision) : nat :=
  match d with Arm => 4 | Grant => 2 | _ => 0 end.

(** A power cut forgets the armed flag ([addMode] is a global that
    [setup] starts at false) and keeps the cards. *)
Definition power_cut (a : state) : state := mkA (cards a) false.

End Abstract.

Section Refinement.
Context `{EepromLaws E}.

(** The abstraction of a controller state. *)
Definition abs (c : ctrl E) : Abstract.state := Abstract.mkA (view (st c)) (addMode c).

(** The abstract state of the whole device: off, restarting or halted
    it holds the table of its EEPROM, disarmed. *)
Definition abs_sys (s : sys E) : Abstract.state :=
  match s with
  | Running c => abs c
  | Off e | Halted e _ => Abstract.mkA (view (load e)) false
  end.

(** The abstract move an input makes from a running device: the
    decision on the card a poll reads once the debounce window of line
    99 has passed, a power cut, or nothing (time passing, a poll that
    returns no card or comes too early, a boot while already running). *)
Definition abs_move (c : ctrl E) (ev : event) : Abstract.state :=
  match ev with
  | Poll _ (Some uid) =>
      if wrap32 (clock c - lastReadTime c) <? debounceDelay then abs c
      else (Abstract.decide_card (abs c) (encode uid)).2
  | Cut => Abstract.power_cut (abs c)
  | _ => abs c
  end.

(** One pass of [loop] on a card against the abstract decision. *)
Definition pass_refines (c : ctrl E) (content : list Z) (d : Abstract.decision)
    (a' : Abstract.state) (r : loop_result E) : Prop :=
  match r with
  | Continue c' =>
      d <> Abstract.Wipe /\ abs c' = a' /\ store_wf (st c') /\
      serial c' = serial c ++ msg_read ++ println content ++ Abstract.lines content d /\
      length (relay_log c') = (length (relay_log c) + Abstract.relay_writes d)%nat
  | Restart e o =>
      d = Abstract.Wipe /\ Abstract.mkA (view (load e)) false = a' /\ store_wf (load e) /\
      o = serial c ++ msg_read ++ println content ++ Abstract.lines content d
  end.

(** ** Lemmas *)

Lemma loop_refines_master c wait uid :
  store_wf (st c) -> debounceDelay <= wrap32 (clock c - lastReadTime c) ->
  encode uid = masterUID ->
  pass_refines c (encode uid) Abstract.Arm (Abstract.mkA (view (st c)) true) (loop c wait (Some uid)).
Proof.
  intros Hwf Hd Hm. rewrite loop_master by done. cbv zeta.
  do 4 (split; [done|]). cbn [relay_log]. rewrite length_app. done.
Qed.

Lemma loop_refines_reset c wait uid :
  debounceDelay <= wrap32 (clock c - lastReadTime c) -> encode uid = eepromResetUID ->
  pass_refines c (encode uid) Abstract.Wipe (Abstract.mkA [] false) (loop c wait (Some uid)).
Proof.
  intros Hd Hr. rewrite loop_polls, handle_read_reset by done.
  destruct (resetEEPROM_load (st (delay c wait))) as (_ & Hv & Hw).
  split; [done|]. split; [by rewrite Hv|]. split; [done|].
  cbn [serial Serial_println Serial_print set_lastReadTime delay]. by rewrite <- !app_assoc.
Qed.

Lemma loop_refines_enroll c wait uid :
  store_wf (st c) -> fits_slot uid -> debounceDelay <= wrap32 (clock c - lastReadTime c) ->
  encode uid <> masterUID -> encode uid <> eepromResetUID -> addMode c = true ->
  pass_refines c (encode uid) (Abstract.Enroll (abs_insert (view (st c)) (encode uid)).2)
    (Abstract.mkA (abs_insert (view (st c)) (encode uid)).1 false) (loop c wait (Some uid)).
Proof.
  intros Hwf Hfit Hd Hm Hr Ha. rewrite loop_enroll by done.
  destruct (addUID_abs_wf (st c) (encode uid) Hwf (encode_is_text uid) Hfit) as [Href Hwf'].
  rewrite <- Href. split; [done|]. split; [done|]. split; [done|]. split; [|done].
  cbn [serial Abstract.lines]. by rewrite <- ?app_assoc.
Qed.

Lemma loop_refines_normal c wait uid :
  store_wf (st c) -> debounceDelay <= wrap32 (clock c - lastReadTime c) ->
  encode uid <> masterUID -> encode uid <> eepromResetUID -> addMode c = false ->
  pass_refines c (encode uid)
    (if decide (encode uid ∈ view (st c)) then Abstract.Grant else Abstract.Deny)
    (abs c) (loop c wait (Some uid)).
Proof.
  intros Hwf Hd Hm Hr Ha. rewrite loop_normal by done. cbv zeta.
  destruct (decide (encode uid ∈ view (st c))) as [Hin|Hin].
  - assert (Hc : checkUID (st c) (encode uid) = true) by by apply checkUID_view.
    rewrite Hc. split; [done|]. split; [unfold abs; by rewrite Ha|].
    do 2 (split; [done|]). cbn [relay_log]. rewrite length_app. done.
  - assert (Hc : checkUID (st c) (encode uid) = false).
    { apply not_true_iff_false. by rewrite checkUID_view. }
    rewrite Hc. split; [done|]. split; [unfold abs; by rewrite Ha|].
    do 2 (split; [done|]). cbn [relay_log]. rewrite app_nil_r. cbn [Abstract.relay_writes]. lia.
Qed.

(** One pass of [loop] on a card refines the abstract decision. *)
Lemma loop_abs c wait uid :
  store_wf (st c) -> fits_slot uid -> debounceDelay <= wrap32 (clock c - lastReadTime c) ->
  pass_refines c (encode uid) (Abstract.decide_card (abs c) (encode uid)).1
    (Abstract.decide_card (abs c) (encode uid)).2 (loop c wait (Some uid)).
Proof.
  intros Hwf Hfit Hd. unfold Abstract.decide_card. cbn [Abstract.cards Abstract.armed abs].
  destruct (decide (encode uid = masterUID)) as [Hm|Hm];
    [exact (loop_refines_master c wait uid Hwf Hd Hm)|].
  destruct (decide (encode uid = eepromResetUID)) as [Hr|Hr];
    [exact (loop_refines_reset c wait uid Hd Hr)|].
  destruct (addMode c) eqn:Ha; [exact (loop_refines_enroll c wait uid Hwf Hfit Hd Hm Hr Ha)|].
  pose proof (loop_refines_normal c wait uid Hwf Hd Hm Hr Ha) as Hn.
  by destruct (decide (encode uid ∈ view (st c))).
Qed.

(** ** Properties *)

(** C22: refinement of one pass of [loop] (lines 97-159): on a
    well-formed table and a card whose text fits a slot, once the
    debounce window has passed, the pass implements the abstract
    decision on the card: the table and the mode it leaves are the
    abstract next state (a wipe restarts on an empty table), the table
    stays well formed, the serial line gets the echo of the card and the
    lines of the decision, and the relay is written exactly as often as
    the decision calls for. *)
Theorem loop_refines c wait uid :
  store_wf (st c) -> fits_slot uid -> debounceDelay <= wrap32 (clock c - lastReadTime c) ->
  pass_refines c (encode uid) (Abstract.decide_card (abs c) (encode uid)).1
    (Abstract.decide_card (abs c) (encode uid)).2 (loop c wait (Some uid)).
Proof. apply loop_abs. Qed.

(** C23: simulation of every input to a running device: for a
    well-formed table and a reader whose cards fit a slot, the abstract
    state after the step (running, or off after the reset card or a
    power cut) is the abstract move of that input: the decision on the
    very card the poll read, when the debounce window has passed, a
    disarm on a power cut, and no change otherwise. *)
Theorem running_step_simulation c ev :
  store_wf (st c) -> event_ok fits_slot ev ->
  abs_sys (sys_step (Running c) ev) = abs_move c ev.
Proof.
  intros Hwf Hev. destruct ev as [fw|d|w [uid|]|]; cbn [sys_step abs_move]; try done.
  - destruct Hev as [_ Hok]. pose proof (Hok uid eq_refl) as Hfit.
    destruct (Z.ltb_spec (wrap32 (clock c - lastReadTime c)) debounceDelay) as [Hlt|Hdb].
    + unfold loop. by rewrite (proj2 (Z.ltb_lt _ _) Hlt).
    + pose proof (loop_abs c w uid Hwf Hfit Hdb) as Href.
      destruct (loop c w (Some uid)); cbn [of_result abs_sys]; by destruct Href as (_ & ? & _).
  - unfold loop. by destruct (_ <? _).
  - cbn [sys_eeprom abs_sys]. by rewrite load_wf_eeprom.
Qed.

(** C24: the count [setup] prints (lines 89-91) reads back as the count
    it loaded: after the ready line and the count notice comes a
    non-empty line of decimal digits whose value is byte 0 of the
    EEPROM, then what the seeding prints. *)
Theorem count_line_roundtrip fw e :
  fw <> 0 ->
  exists c digits, setup fw e = Running c /\
    serial c = println msg_ready ++ msg_count ++ println digits ++ (addPredefinedUIDs_io (load e)).2 /\
    digits <> [] /\ Forall is_digit digits /\ dec_value digits = ee_read e 0.
Proof.
  intros Hfw. unfold setup. destruct (Z.eqb_spec fw 0); [done|].
  pose proof (ee_read_range e 0) as Hr.
  eexists. exists (print_long (ee_read e 0)). split; [reflexivity|].
  split; [cbn [serial st Serial_print Serial_println set_store digitalWrite pinMode eeprom cardCount load];
          by rewrite <- !app_assoc, app_nil_l|].
  unfold print_long. destruct (Z.ltb_spec (ee_read e 0) 0); [lia|].
  apply printNumber_roundtrip. lia.
Qed.

(** C27: the boot log after the reset card: when the count byte is 0
    and the reader answers, [setup] prints the ready line, the count it
    loaded ("0"), and for each of the 31 factory texts in order the
    success of [addUID] and the announcement of line 217. *)
Theorem boot_log_after_reset e fw :
  ee_read e 0 = 0 -> fw <> 0 ->
  exists c, setup fw e = Running c /\
    serial c = println msg_ready ++ msg_count ++ println (print_long 0) ++
               concat (seed_lines Added <$> predefinedUIDs).
Proof. apply setup_log_zero. Qed.

(** C28: the enrollment branch announces the card as added (line 141)
    before [addUID] decides: when [addUID] refuses it (already present,
    or the table is full) the table is unchanged, yet the serial line
    shows "Yeni kart eklendi: " with the card, followed by the refusal. *)
Theorem enrollment_announced_before_outcome c wait uid :
  debounceDelay <= wrap32 (clock c - lastReadTime c) ->
  encode uid <> masterUID -> encode uid <> eepromResetUID -> addMode c = true ->
  (addUID (st c) (encode uid)).2 <> Added ->
  exists c', loop c wait (Some uid) = Continue c' /\ st c' = st c /\
    serial c' = serial c ++ msg_read ++ println (encode uid) ++
                println (msg_new_card ++ encode uid) ++
                println (addUID_msg (addUID (st c) (encode uid)).2).
Proof.
  intros Hd Hm Hr Ha Hno. rewrite loop_enroll by done.
  eexists. split; [reflexivity|]. split; [|done]. cbn [st]. by apply addUID_refused.
Qed.
End Refinement.

Lemma loop_refines_witness :
  store_wf (st ready) /\ fits_slot card_X /\
  debounceDelay <= wrap32 (clock ready - lastReadTime ready) /\
  pass_refines ready (encode card_X) (Abstract.decide_card (abs ready) (encode card_X)).1
    (Abstract.decide_card (abs ready) (encode card_X)).2 (loop ready 0 (Some card_X)).
Proof.
  assert (H1 : store_wf (st ready)) by (apply (bool_decide_eq_true_1 _); vm_compute; reflexivity).
  assert (H2 : fits_slot card_X) by (unfold fits_slot; vm_compute; lia).
  assert (H3 : debounceDelay <= wrap32 (clock ready - lastReadTime ready))
    by (vm_compute; discriminate).
  split; [exact H1|]. split; [exact H2|]. split; [exact H3|].
  exact (loop_refines ready 0 card_X H1 H2 H3).
Defined.

Lemma running_step_simulation_witness :
  store_wf (st ready) /\ event_ok fits_slot (Poll 0 (Some master_bytes)) /\
  abs_sys (sys_step (Running ready) (Poll 0 (Some master_bytes))) =
    abs_move ready (Poll 0 (Some master_bytes)).
Proof.
  assert (H1 : store_wf (st ready)) by (apply (bool_decide_eq_true_1 _); vm_compute; reflexivity).
  assert (H2 : event_ok fits_slot (Poll 0 (Some master_bytes))).
  { split; [lia|]. intros uid [= <-]. unfold fits_slot. vm_compute. lia. }
  split; [exact H1|]. split; [exact H2|].
  exact (running_step_simulation ready (Poll 0 (Some master_bytes)) H1 H2).
Defined.

Lemma boot_log_after_reset_witness :
  ee_read fresh 0 = 0 /\ 1 <> 0 /\
  exists c, setup 1 fresh = Running c /\
    serial c = println msg_ready ++ msg_count ++ println (print_long 0) ++
               concat (seed_lines Added <$> predefinedUIDs).
Proof.
  assert (H1 : ee_read fresh 0 = 0) by reflexivity. assert (H2 : 1 <> 0) by lia.
  split; [exact H1|]. split; [exact H2|]. exact (boot_log_after_reset fresh 1 H1 H2).
Defined.

Lemma enrollment_announced_before_outcome_witness :
  debounceDelay <= wrap32 (clock (set_addMode ready true) - lastReadTime (set_addMode ready true)) /\
  encode factory_bytes <> masterUID /\ encode factory_bytes <> eepromResetUID /\
  addMode (set_addMode ready true) = true /\
  (addUID (st (set_addMode ready true)) (encode factory_bytes)).2 <> Added /\
  exists c', loop (set_addMode ready true) 0 (Some factory_bytes) = Continue c' /\
    st c' = st (set_addMode ready true).
Proof.
  assert (H1 : debounceDelay <= wrap32 (clock (set_addMode ready true)
                                        - lastReadTime (set_addMode ready true)))
    by (vm_compute; discriminate).
  assert (H2 : encode factory_bytes <> masterUID) by (vm_compute; discriminate).
  assert (H3 : encode factory_bytes <> eepromResetUID) by (vm_compute; discriminate).
  assert (H4 : addMode (set_addMode ready true) = true) by reflexivity.
  assert (H5 : (addUID (st (set_addMode ready true)) (encode factory_bytes)).2 <> Added)
    by (vm_compute; discriminate).
  do 5 (split; [assumption|]).
  destruct (enrollment_announced_before_outcome (set_addMode ready true) 0 factory_bytes
              H1 H2 H3 H4 H5) as (c' & Hc & Hs & _).
  exact (ex_intro _ c' (conj Hc Hs)).
Defined.

Lemma count_line_roundtrip_witness :
  1 <> 0 /\ exists c digits, setup 1 fresh = Running c /\ dec_value digits = ee_read fresh 0.
Proof.
  assert (H : 1 <> 0) by lia. split; [exact H|].
  destruct (count_line_roundtrip 1 fresh H) as (c & digits & Hs & _ & _ & _ & Hv).
  exact (ex_intro _ c (ex_intro _ digits (conj Hs Hv))).
Defined.
