(* ===== verification/Liveness.v ===== *)
(** * Liveness and termination of the controller

    What the device eventually does, under the environment's inputs
    ([sys_step] and [run] of [Controller]): a card held on the reader is
    handled after at most [debounceDelay] ms of waiting, a card that
    enrollment accepted opens the door when it is presented again, and
    enrollment cannot go on adding cards forever (the successful
    additions form a well-founded relation, bounded by [maxCards]).  The
    one state the device never leaves by itself is the [while (1);] of
    [setup] without a reader: only a power cut gets it out. *)

From S2P Require Import Prelude Codec Eeprom Store Provision Serial Controller.
#[local] Open Scope Z_scope.
#[local] Open Scope hodor_scope.

Section Liveness.
Context `{EepromLaws E}.

(** ** Lemmas *)

(** After a wait of at most [debounceDelay], the debounce test passes. *)
Lemma debounce_reach (c : ctrl E) :
  exists d, 0 <= d <= debounceDelay /\
    debounceDelay <= wrap32 (clock (delay c d) - lastReadTime (delay c d)).
Proof.
  destruct (wrap32_reach (clock c) (lastReadTime c) debounceDelay) as (d & Hd & Hw);
    [unfold debounceDelay; lia|].
  by exists d.
Qed.

(** An [addUID] that does not report a full table leaves the text in
    the table. *)
Lemma addUID_not_full_found (s : store E) id :
  store_wf s -> fits id -> (addUID s id).2 <> LimitExceeded ->
  checkUID (addUID s id).1 id = true.
Proof.
  intros Hwf [Hid Hlen] Hno. apply checkUID_view.
  destruct (addUID_abs_wf s id Hwf Hid Hlen) as [Href _].
  revert Href Hno. unfold abs_insert.
  destruct (bool_decide _); [|by intros [= _ ->]].
  destruct (bool_decide_reflect (id ∈ view s)) as [Hin|Hin]; intros [= -> ->] _; [done|].
  set_solver.
Qed.

(** A successful [addUID] counts one more card, below the capacity. *)
Lemma addUID_added_below (s : store E) id s' :
  addUID s id = (s', Added) -> cardCount s < maxCards /\ cardCount s' = cardCount s + 1.
Proof.
  unfold addUID. destruct (Z.ltb_spec (cardCount s) maxCards); [|done].
  destruct (checkUID s id); [done|]. by intros [= <-].
Qed.

(** ** Properties *)

(** C29: liveness of reading: whatever the state of a running device and
    the time of the last read, after some wait [d] of at most 3000 ms
    the next pass of [loop] polls the reader and handles the card held
    on it. *)
Theorem card_read_within_debounce (c : ctrl E) wait uid :
  exists d, 0 <= d <= debounceDelay /\
    run (Running c) [Tick d; Poll wait (Some uid)] =
    of_result (handle_read (delay (delay c d) wait) uid).
Proof.
  destruct (debounce_reach c) as (d & Hd & Hdb). exists d. split; [done|].
  cbn [run fold_left sys_step]. by rewrite loop_polls.
Qed.

(** C30: an accepted enrollment is effective: when enrollment mode takes
    a fitting card and [addUID] does not refuse it for a full table, the
    card presented again after at most 3000 ms of waiting energizes the
    relay for 3 s, whatever the time the reader takes to answer. *)
Theorem enrolled_card_granted c wait uid :
  store_wf (st c) -> fits_slot uid ->
  debounceDelay <= wrap32 (clock c - lastReadTime c) ->
  encode uid <> masterUID -> encode uid <> eepromResetUID -> addMode c = true ->
  (addUID (st c) (encode uid)).2 <> LimitExceeded ->
  exists c1, loop c wait (Some uid) = Continue c1 /\
  exists d, 0 <= d <= debounceDelay /\ forall wait',
    exists c2, run (Running c1) [Tick d; Poll wait' (Some uid)] = Running c2 /\
      relay_log c2 = relay_log c1 ++ [(wrap32 (clock (delay c1 d) + wait'), LOW);
                                      (wrap32 (clock (delay c1 d) + wait' + 3000), HIGH)].
Proof.
  intros Hwf Hfit Hd Hm Hr Ha Hno. rewrite loop_enroll by done.
  eexists. split; [reflexivity|].
  set (c1 := mkCtrl _ _ _ _ _ _ _ _).
  destruct (debounce_reach c1) as (d & Hd1 & Hdb). exists d. split; [done|]. intros wait'.
  assert (Hg : checkUID (st (delay c1 d)) (encode uid) = true).
  { apply (addUID_not_full_found (st c) (encode uid) Hwf); [|done].
    split; [apply encode_is_text|done]. }
  cbn [run fold_left sys_step of_result]. rewrite loop_normal by done.
  cbv zeta. rewrite Hg. eexists. split; reflexivity.
Qed.

(** C31: termination of enrollment: there is no infinite sequence of
    successful [addUID]s; each one raises the count, which the capacity
    guard keeps below 50. *)
Theorem enrollment_terminates :
  well_founded (fun s' s : store E => exists id, addUID s id = (s', Added)).
Proof.
  apply (well_founded_lt_compat _ (fun s => Z.to_nat (maxCards - cardCount s))).
  intros s' s (id & Hadd). apply addUID_added_below in Hadd as [Hlt Hc]. lia.
Qed.

(** C32: without a reader ([getFirmwareVersion] answers 0) [setup]
    prints its complaint and stops in [while (1);] (lines 74-77): the
    only step out of that state is a power cut. *)
Theorem no_reader_halts ok e s' :
  step ok (setup 0 e) s' -> setup 0 e = Halted e msg_no_reader /\ s' = Off e.
Proof.
  assert (Hs : setup 0 e = Halted e msg_no_reader) by reflexivity.
  rewrite Hs. intros Hstep. split; [done|].
  remember (Halted e msg_no_reader) as h eqn:Hh.
  destruct Hstep; simplify_eq; done.
Qed.
End Liveness.

Lemma enrolled_card_granted_witness :
  store_wf (st (set_addMode ready true)) /\ fits_slot card_X /\
  debounceDelay <= wrap32 (clock (set_addMode ready true) - lastReadTime (set_addMode ready true)) /\
  encode card_X <> masterUID /\ encode card_X <> eepromResetUID /\
  addMode (set_addMode ready true) = true /\
  (addUID (st (set_addMode ready true)) (encode card_X)).2 <> LimitExceeded /\
  exists c1, loop (set_addMode ready true) 0 (Some card_X) = Continue c1.
Proof.
  assert (H1 : store_wf (st (set_addMode ready true)))
    by (apply (bool_decide_eq_true_1 _); vm_compute; reflexivity).
  assert (H2 : fits_slot card_X) by (unfold fits_slot; vm_compute; lia).
  assert (H3 : debounceDelay <= wrap32 (clock (set_addMode ready true)
                                        - lastReadTime (set_addMode ready true)))
    by (vm_compute; discriminate).
  assert (H4 : encode card_X <> masterUID) by (vm_compute; discriminate).
  assert (H5 : encode card_X <> eepromResetUID) by (vm_compute; discriminate).
  assert (H6 : addMode (set_addMode ready true) = true) by reflexivity.
  assert (H7 : (addUID (st (set_addMode ready true)) (encode card_X)).2 <> LimitExceeded)
    by (vm_compute; discriminate).
  do 7 (split; [assumption|]).
  destruct (enrolled_card_granted (set_addMode ready true) 0 card_X H1 H2 H3 H4 H5 H6 H7)
    as (c1 & Hc1 & _).
  exact (ex_intro _ c1 Hc1).
Defined.

Lemma no_reader_halts_witness :
  step (fun _ => True) (setup 0 fresh) (Off fresh) /\
  setup 0 fresh = Halted fresh msg_no_reader /\ Off fresh = Off fresh.
Proof.
  assert (H : step (fun _ => True) (setup 0 fresh) (Off fresh)) by exact (step_cut _ (setup 0 fresh)).
  split; [exact H|]. exact (no_reader_halts (fun _ => True) fresh (Off fresh) H).
Defined.
